(** * PMGen, [utils/alignment.py]: a shallow embedding and its properties

    The development follows the Python module function by function:
    [filter_mafft_alignment], [mhc2_cluster_combination_seqs],
    [create_parsefold_input_from_representatives], [extract_fasta_sequences]
    and [match_pseudoseq].  Python exceptions are values of [result];
    everything the module obtains from the outside (directory listings,
    parsed FASTA files, the aligner, the stored array artifacts) is an
    explicit argument or a field of [World]. *)

From Stdlib Require Import ZArith List String Ascii Bool Lia Sorted.
From Stdlib Require Import PrimFloat Uint63.
From Stdlib Require DecimalString DecimalZ.
Import ListNotations.

Local Open Scope string_scope.
Local Open Scope list_scope.
Local Open Scope Z_scope.

(** ** Exceptions *)

Inductive exn : Type :=
| AssertionError
| IndexError
| KeyError
| ValueError
| ZeroDivisionError
| StopIteration
| OSError
| CalledProcessError.

Inductive result (A : Type) : Type :=
| Ok (a : A)
| Raise (e : exn).

Arguments Ok {A} a.
Arguments Raise {A} e.

Definition bind {A B : Type} (m : result A) (k : A -> result B) : result B :=
  match m with
  | Ok a => k a
  | Raise e => Raise e
  end.

Notation "x <- m ;; k" := (bind m (fun x => k))
  (at level 61, m at next level, right associativity).
Notation "m ;;; k" := (bind m (fun _ => k))
  (at level 61, right associativity).

(** [assert c] *)
Definition assert (c : bool) : result unit :=
  if c then Ok tt else Raise AssertionError.

(** A [for] loop whose body may raise: the first exception ends the loop. *)
Fixpoint foldM {S A : Type} (body : S -> A -> result S) (s : S) (l : list A)
  : result S :=
  match l with
  | [] => Ok s
  | a :: l' =>
      match body s a with
      | Ok s' => foldM body s' l'
      | Raise e => Raise e
      end
  end.

(** [enumerate(l)] *)
Fixpoint enumerate_from {A : Type} (k : nat) (l : list A) : list (nat * A) :=
  match l with
  | [] => []
  | a :: l' => (k, a) :: enumerate_from (S k) l'
  end.

Definition enumerate {A : Type} (l : list A) : list (nat * A) :=
  enumerate_from 0 l.

(** [l[k]] for a non-negative index [k] *)
Definition getitem {A : Type} (l : list A) (k : nat) : result A :=
  match nth_error l k with
  | Some a => Ok a
  | None => Raise IndexError
  end.

(** ** Python strings *)

Definition chars : string -> list ascii := list_ascii_of_string.

(** [sub in s] *)
Fixpoint contains (sub s : string) : bool :=
  match s with
  | EmptyString => String.eqb sub EmptyString
  | String _ s' => String.prefix sub s || contains sub s'
  end.

(** [s.replace(old, new)] for a non-empty [old]: [skip] counts the characters
    of a match of [old] that are still to be passed over. *)
Fixpoint replace_from (old new : string) (skip : nat) (s : string) : string :=
  match s with
  | EmptyString => EmptyString
  | String c s' =>
      match skip with
      | S k => replace_from old new k s'
      | O =>
          if String.prefix old s
          then (new ++ replace_from old new (String.length old - 1) s')%string
          else String c (replace_from old new 0 s')
      end
  end.

Definition replace (old new s : string) : string := replace_from old new 0 s.

(** [s.replace(c, '')] for a single character [c] *)
Fixpoint remove_char (c : ascii) (s : string) : string :=
  match s with
  | EmptyString => EmptyString
  | String a s' =>
      if Ascii.eqb a c then remove_char c s' else String a (remove_char c s')
  end.

(** [s.split(sep)] for a non-empty [sep]; the result always has at least one
    element. *)
Fixpoint split_from (sep : string) (skip : nat) (s : string) : list string :=
  match s with
  | EmptyString => [EmptyString]
  | String c s' =>
      match skip with
      | S k => split_from sep k s'
      | O =>
          if String.prefix sep s
          then EmptyString :: split_from sep (String.length sep - 1) s'
          else
            match split_from sep 0 s' with
            | h :: t => String c h :: t
            | [] => [String c EmptyString]
            end
      end
  end.

Definition split (sep s : string) : list string := split_from sep 0 s.

(** [sep.join(l)] *)
Definition join (sep : string) (l : list string) : string := String.concat sep l.

(** [s.rstrip('/')] *)
Fixpoint drop_slashes (l : list ascii) : list ascii :=
  match l with
  | c :: l' => if Ascii.eqb c "/" then drop_slashes l' else l
  | [] => []
  end.

Definition rstrip_slash (s : string) : string :=
  string_of_list_ascii (rev (drop_slashes (rev (chars s)))).

(** [str(n)] for an integer *)
Definition str (n : Z) : string := DecimalString.NilEmpty.string_of_int (Z.to_int n).

(** [os.path.join(a, b)] on a POSIX system *)
Definition ends_with_slash (s : string) : bool :=
  match rev (chars s) with
  | c :: _ => Ascii.eqb c "/"
  | [] => false
  end.

Definition os_path_join (a b : string) : string :=
  if String.prefix "/" b then b
  else if String.eqb a EmptyString || ends_with_slash a then (a ++ b)%string
  else (a ++ "/" ++ b)%string.

(** ** FASTA records and tables *)

Record SeqRecord : Type := mkSeqRecord {
  rec_id : string;
  rec_description : string;
  rec_seq : string
}.

(** A data frame is the list of its rows. *)
Definition DataFrame (R : Type) : Type := list R.

(** [pd.concat(frames)]: raises on an empty list of frames. *)
Definition pd_concat {R : Type} (frames : list (DataFrame R))
  : result (DataFrame R) :=
  match frames with
  | [] => Raise ValueError
  | _ :: _ => Ok (List.concat frames)
  end.

(** [df.drop_duplicates(subset=...)]: the first row of every key is kept. *)
Fixpoint drop_duplicates_from {R K : Type} (eqb : K -> K -> bool)
  (key : R -> K) (seen : list K) (rows : DataFrame R) : DataFrame R :=
  match rows with
  | [] => []
  | r :: rows' =>
      if existsb (eqb (key r)) seen
      then drop_duplicates_from eqb key seen rows'
      else r :: drop_duplicates_from eqb key (key r :: seen) rows'
  end.

Definition drop_duplicates {R K : Type} (eqb : K -> K -> bool)
  (key : R -> K) (rows : DataFrame R) : DataFrame R :=
  drop_duplicates_from eqb key [] rows.

(** ** [filter_mafft_alignment] *)

(** Python numbers that are sequence lengths, as binary64 floats (exact below
    2^53, which every length of a list in memory is). *)
Definition float_of_nat (n : nat) : float :=
  PrimFloat.of_uint63 (Uint63.of_Z (Z.of_nat n)).

(** [sum(1 for res in query_seq if res != "-")] *)
Fixpoint aligned_length (query_seq : string) : nat :=
  match query_seq with
  | EmptyString => O
  | String res s' =>
      if Ascii.eqb res "-" then aligned_length s' else S (aligned_length s')
  end.

(** [compute_coverage]: [(aligned_length / ref_seq_length) * 100], the true
    division of two integers followed by a float multiplication. *)
Definition compute_coverage (ref_seq_length : nat) (query_seq : string)
  : result float :=
  if Nat.eqb ref_seq_length 0 then Raise ZeroDivisionError
  else Ok (PrimFloat.mul
             (PrimFloat.div (float_of_nat (aligned_length query_seq))
                            (float_of_nat ref_seq_length))
             100%float).

(** [str(record.seq).replace('-', '').replace('X', '')] *)
Definition strip_gaps (s : string) : string :=
  remove_char "X" (remove_char "-" s).

(** The body of [for record in alignment], on the list built so far. *)
Definition filter_record (ref_seq_id : string) (ref_seq_length : nat)
  (coverage_threshold : float) (filtered_sequences : list SeqRecord)
  (record : SeqRecord) : result (list SeqRecord) :=
  if String.eqb (rec_id record) ref_seq_id
  then Ok (filtered_sequences ++ [record])
  else
    coverage <- compute_coverage ref_seq_length (rec_seq record) ;;
    if PrimFloat.leb coverage_threshold coverage
    then
      let new_seq := {| rec_seq := strip_gaps (rec_seq record);
                        rec_id := rec_id record;
                        rec_description := rec_description record |} in
      Ok (filtered_sequences ++ [new_seq])
    else Ok filtered_sequences.

(** [alignment] is what [AlignIO.read] returns for the aligner's output,
    [reference] the records of the reference FASTA file and
    [coverage_threshold] the caller's number as a binary64 value (an integer
    threshold below 2^53 is one exactly); the result is the list written to
    [filtered_output] with the two returned counts. *)
Definition filter_mafft_alignment (alignment reference : list SeqRecord)
  (coverage_threshold : float) : result (list SeqRecord * (nat * nat)) :=
  let num_records_init := List.length alignment in
  match reference with
  | [] => Raise StopIteration
  | ref_seq_record :: _ =>
      let ref_seq_id := rec_id ref_seq_record in
      let ref_seq_length := String.length (rec_seq ref_seq_record) in
      filtered_sequences <-
        foldM (filter_record ref_seq_id ref_seq_length coverage_threshold)
              [] alignment ;;
      let num_records_final := List.length filtered_sequences in
      Ok (filtered_sequences, (num_records_init, num_records_final))
  end.

(** ** [mhc2_cluster_combination_seqs] *)

Definition first_char_is_D (i : string) : bool :=
  match i with
  | String c _ => Ascii.eqb c "D"
  | EmptyString => false
  end.

Definition DICT_homo : list (string * string) :=
  [("DMA", "DMB"); ("DOA", "DOB"); ("DPA1", "DPB1"); ("DQA1", "DQB1");
   ("DRA", "DRB1-DRB3-DRB4-DRB5")].

Definition DICT_other : list (string * string) :=
  [("DMA", "DMB"); ("DOA", "DOB"); ("DPA", "DPB"); ("DQA", "DQB");
   ("DRA", "DRB")].

Definition DICT (species : string) : list (string * string) :=
  if String.eqb species "homo" then DICT_homo else DICT_other.

Definition SPECIES : list string :=
  ["homo"; "SLA"; "Patr"; "Mamu"; "BOLA"; "DLA"].

(** [[i for i in files if gene in i and species in i]] *)
Definition matching (files : list string) (gene species : string) : list string :=
  filter (fun i => contains gene i && contains species i) files.

(** One written FASTA file: its path and its (header, sequence) records. *)
Definition PairedFasta : Type := (string * list (string * string))%type.

(** The nested [for rec_a ... for rec_b ...] loops that write one file. *)
Definition cross_product (alpha_rec beta_rec : list SeqRecord)
  : list (string * string) :=
  flat_map (fun rec_a =>
    map (fun rec_b =>
           ((rec_description rec_a ++ ";;" ++ rec_description rec_b)%string,
            (rec_seq rec_a ++ "/" ++ rec_seq rec_b)%string))
        beta_rec) alpha_rec.

(** The body of [for val in value.split('-')]. *)
Definition pair_with_beta (read_fasta : string -> list SeqRecord)
  (files : list string) (out_dir species key alpha : string)
  (written : list PairedFasta) (val : string) : result (list PairedFasta) :=
  let beta := matching files val species in
  assert (Nat.eqb (List.length beta) 1) ;;;
  beta0 <- getitem beta 0 ;;
  Ok (written ++
      [((out_dir ++ "/" ++ key ++ "_" ++ val ++ "-" ++ species ++ ".fasta")%string,
        cross_product (read_fasta alpha) (read_fasta beta0))]).

(** The body of [for key, value in DICT.items()]. *)
Definition pair_genes (read_fasta : string -> list SeqRecord)
  (files : list string) (out_dir species : string)
  (written : list PairedFasta) (kv : string * string)
  : result (list PairedFasta) :=
  let '(key, value) := kv in
  let alpha := matching files key species in
  assert (Nat.leb (List.length alpha) 1) ;;;
  match alpha with
  | [] => Ok written
  | alpha0 :: _ =>
      foldM (pair_with_beta read_fasta files out_dir species key alpha0)
            written (split "-" value)
  end.

(** [listing] is [os.listdir(path_to_cluster_representatives)]; the result is
    the list of paired FASTA files written, in the order of writing. *)
Definition mhc2_cluster_combination_seqs (listing : list string)
  (read_fasta : string -> list SeqRecord)
  (path_to_cluster_representatives out_dir iden_for_representative : string)
  : result (list PairedFasta) :=
  let files :=
    map (os_path_join path_to_cluster_representatives)
        (filter (fun i => contains iden_for_representative i
                          && contains "fasta" i && first_char_is_D i) listing) in
  let out_dir := rstrip_slash out_dir in
  foldM (fun written species =>
           foldM (pair_genes read_fasta files out_dir species)
                 written (DICT species))
        [] SPECIES.

(** ** [create_parsefold_input_from_representatives] *)

Record InputRow : Type := mkInputRow {
  in_peptide : string;
  in_mhc_seq : string;
  in_mhc_type : Z;
  in_anchors : option string;
  in_id : string
}.

(** The peptides used: the caller's, or the default of the declared class. *)
Definition default_peptides (peptides : list string) (mhc_type : Z)
  : list string :=
  match peptides with
  | [] =>
      if mhc_type =? 1 then ["MRMATPLLM"]
      else if mhc_type =? 2 then ["MRMATPLLMQALPM"]
      else peptides
  | _ :: _ => peptides
  end.

(** [list_of_dir] after its two (or three) list comprehensions. *)
Definition list_of_dir (listing : list string) (isdir : string -> bool)
  (fasta_dir iden : string) (no_iden : option string) : list string :=
  let l1 := filter (fun i => contains ".fasta" i || contains ".fa" i) listing in
  let l2 := filter (fun i => negb (isdir (os_path_join fasta_dir i))
                             && contains iden i) l1 in
  match no_iden with
  | Some n =>
      if String.eqb n EmptyString then l2
      else filter (fun i => negb (contains n i)) l2
  | None => l2
  end.

(** The loops over records and peptides carry the counter [num] and the list
    [DF] of one-row frames. *)
Definition emit_row (mhc_type : Z) (record : SeqRecord)
  (st : Z * list (DataFrame InputRow)) (peptide : string)
  : Z * list (DataFrame InputRow) :=
  let '(num, DF) := st in
  let df := [{| in_peptide := peptide;
                in_mhc_seq := rec_seq record;
                in_mhc_type := mhc_type;
                in_anchors := None;
                in_id := (rec_id record ++ "_" ++ str num)%string |}] in
  (num + 1, DF ++ [df]).

Definition emit_record (peptides : list string) (mhc_type : Z)
  (st : Z * list (DataFrame InputRow)) (record : SeqRecord)
  : Z * list (DataFrame InputRow) :=
  fold_left (emit_row mhc_type record) peptides st.

Definition emit_file (read_fasta : string -> list SeqRecord)
  (peptides : list string) (mhc_type : Z)
  (st : Z * list (DataFrame InputRow)) (input_fasta : string)
  : Z * list (DataFrame InputRow) :=
  if contains "_rep" input_fasta && contains ".fasta" input_fasta
  then fold_left (emit_record peptides mhc_type) (read_fasta input_fasta) st
  else st.

Definition create_parsefold_input_from_representatives
  (listing : list string) (isdir : string -> bool)
  (read_fasta : string -> list SeqRecord)
  (fasta_dir : string) (peptides : list string) (mhc_type : Z)
  (iden : string) (num : Z) (no_iden : option string)
  : result (DataFrame InputRow) :=
  assert ((mhc_type =? 2) || (mhc_type =? 1)) ;;;
  let peptides := default_peptides peptides mhc_type in
  let list_of_dir := list_of_dir listing isdir fasta_dir iden no_iden in
  let '(_, DF) :=
    fold_left (emit_file read_fasta peptides mhc_type)
              (map (os_path_join fasta_dir) list_of_dir) (num, []) in
  pd_concat DF.

(** ** [extract_fasta_sequences] and [match_pseudoseq] *)

(** A stored array, by rows (an N x 2 integer matrix when well formed), and an
    [.npz] archive: its keys in stored order, each with its array or with the
    exception that decoding it raises. *)
Definition NpArray : Type := list (list Z).
Definition NpzFile : Type := list (string * result NpArray).

(** [arr[key]] *)
Fixpoint npz_getitem (arr : NpzFile) (key : string) : result NpArray :=
  match arr with
  | [] => Raise KeyError
  | (k, a) :: arr' => if String.eqb k key then a else npz_getitem arr' key
  end.

(** [a[:, 1]] *)
Fixpoint column_1 (a : NpArray) : result (list Z) :=
  match a with
  | [] => Ok []
  | row :: a' =>
      x <- getitem row 1 ;;
      rest <- column_1 a' ;;
      Ok (x :: rest)
  end.

(** [np.unique]: the sorted list of the distinct values. *)
Fixpoint insert_unique (x : Z) (l : list Z) : list Z :=
  match l with
  | [] => [x]
  | y :: l' =>
      if x <? y then x :: l
      else if x =? y then l
      else y :: insert_unique x l'
  end.

Definition np_unique (l : list Z) : list Z := fold_right insert_unique [] l.

(** A cell of a table as [pd.read_csv] returns it: a string, or a value of
    another type (a column whose cells are all digits is read as integers, an
    empty cell as a missing value), which equals no string. *)
Inductive Cell : Type :=
| Str (s : string)
| NotStr.

(** [cell == s] and, in a list, [s in cells], for a string [s]. *)
Definition cell_eqb (c : Cell) (s : string) : bool :=
  match c with
  | Str t => String.eqb t s
  | NotStr => false
  end.

(** What the function reads from outside: the array artifact of a run, a
    cluster-membership table as (rep, member) rows, the records of a FASTA
    file, and the aligner run on a scratch FASTA file (given by its path and
    its records) followed by the parse of its output. *)
Record World : Type := mkWorld {
  np_load : string -> result NpzFile;
  read_cluster_tsv : string -> result (list (Cell * Cell));
  parse_fasta : string -> result (list SeqRecord);
  run_mafft : string -> list SeqRecord -> result (list SeqRecord)
}.

(** The records written to [output_fasta]. *)
Definition extract_fasta_sequences (w : World) (input_fasta : string)
  (headers_to_keep : list Cell) : result (list SeqRecord) :=
  records <- parse_fasta w input_fasta ;;
  Ok (filter (fun record =>
                existsb (fun header => cell_eqb header (rec_id record))
                        headers_to_keep
                && Nat.ltb 0 (String.length (rec_seq record))) records).

(** One row of the input table. *)
Record ClipRow : Type := mkClipRow {
  row_chunk_id : Z;
  row_file : string;
  row_id : string;
  row_mhc_type : Z;
  row_iden : string
}.

Record SuccessRow : Type := mkSuccessRow {
  mhc_id : string;
  species : string;
  mhc_types : Z;
  pseudo_sequence : string;
  representative_id : string;
  sequence : string;
  repres_pseudo_positions : string
}.

Record FailureRow : Type := mkFailureRow { iden : string }.

(** The two accumulators of the extraction loop. *)
Record Acc : Type := mkAcc {
  DF : list (DataFrame SuccessRow);
  FAILED : list (DataFrame FailureRow)
}.

(** [record.seq[i]], with Python's negative indices. *)
Definition seq_getitem (s : string) (i : Z) : result ascii :=
  let n := Z.of_nat (String.length s) in
  let k := if i <? 0 then i + n else i in
  if (0 <=? k) && (k <? n)
  then match String.get (Z.to_nat k) s with
       | Some c => Ok c
       | None => Raise IndexError
       end
  else Raise IndexError.

(** [''.join(record.seq[i] for i in mhc_position if i < len(record.seq))] *)
Fixpoint filtered_seq (s : string) (mhc_position : list Z) : result string :=
  match mhc_position with
  | [] => Ok EmptyString
  | i :: positions =>
      if i <? Z.of_nat (String.length s)
      then
        c <- seq_getitem s i ;;
        rest <- filtered_seq s positions ;;
        Ok (String c rest)
      else filtered_seq s positions
  end.

(** [f.split('-')[1].split('_')[0]] *)
Definition species_of (f : string) : result string :=
  p <- getitem (split "-" f) 1 ;;
  getitem (split "_" p) 0.

(** The body of [for record in SeqIO.parse(...)]; the seven parallel lists of
    the source grow together and are kept as one list of rows. *)
Definition extract_record (mhc_type : Z) (f : string) (idens : list string)
  (enum : nat) (mhc_position : list Z) (rows : list SuccessRow)
  (record : SeqRecord) : result (list SuccessRow) :=
  if negb (String.eqb (rec_seq record) EmptyString)
  then
    filtered <- filtered_seq (rec_seq record) mhc_position ;;
    if negb (String.eqb filtered EmptyString)
    then
      sp <- species_of f ;;
      rep <- getitem idens enum ;;
      Ok (rows ++
          [{| mhc_id := rec_id record;
              sequence := rec_seq record;
              pseudo_sequence := filtered;
              species := sp;
              representative_id := rep;
              mhc_types := mhc_type;
              repres_pseudo_positions := join ";" (map str mhc_position) |}])
    else Ok rows
  else Ok rows.

(** [iden]: the row's identifier without its last [_]-separated field, split
    at [;;]. *)
Definition idens_of (row : ClipRow) : list string :=
  split ";;" (join "_" (removelast (split "_" (row_iden row)))).

(** The [try] block for chain [enum] with file name [f], first part: the
    assertions, the cluster members, the scratch file and its alignment, and
    the contact positions.  It yields the aligned records and [mhc_position]. *)
Definition prepare_chain (w : World) (path_to_mmseq_clust_folder tmp_dir : string)
  (number : Z) (row : ClipRow) (arr : NpzFile)
  (enum : nat) (f : string) : result (list SeqRecord * list Z) :=
  let Files := row_file row in
  let mhc_type := row_mhc_type row in
  let mmseq_file := f in
  let input_fasta := os_path_join path_to_mmseq_clust_folder mmseq_file in
  let output_fasta :=
    os_path_join tmp_dir (str number ++ "_" ++ mmseq_file)%string in
  let idens := idens_of row in
  (if mhc_type =? 2
   then assert (Nat.eqb (List.length idens) 2) ;;;
        assert (Nat.eqb (List.length (split ";;" Files)) 2)
   else assert (Nat.eqb (List.length idens) 1) ;;;
        assert (Nat.eqb (List.length (split ";;" Files)) 1)) ;;;
  let tsvfile := replace "clust_all_seqs.fasta" "clust_cluster.tsv" mmseq_file in
  tsv <- read_cluster_tsv w (os_path_join path_to_mmseq_clust_folder tsvfile) ;;
  rep <- getitem idens enum ;;
  let sub_tsv := filter (fun rm => cell_eqb (fst rm) rep) tsv in
  let headers_to_keep := map snd sub_tsv in
  extracted <- extract_fasta_sequences w input_fasta headers_to_keep ;;
  aligned <- run_mafft w output_fasta extracted ;;
  key <- getitem (map fst arr) enum ;;
  a <- npz_getitem arr key ;;
  col <- column_1 a ;;
  let mhc_position := np_unique col in
  Ok (aligned, mhc_position).

(** The [try] block, second part: the loop over the aligned records and the
    choice between a success frame and a failure frame. *)
Definition collect_chain (row : ClipRow) (st : Acc) (enum : nat) (f : string)
  (aligned : list SeqRecord) (mhc_position : list Z) : result Acc :=
  let mhc_type := row_mhc_type row in
  let idens := idens_of row in
  rows <- foldM (extract_record mhc_type f idens enum mhc_position) [] aligned ;;
  if negb (Nat.eqb (List.length rows) 0)
  then Ok {| DF := DF st ++ [rows]; FAILED := FAILED st |}
  else
    rep <- getitem idens enum ;;
    Ok {| DF := DF st; FAILED := FAILED st ++ [[{| iden := rep |}]] |}.

Definition try_chain (w : World) (path_to_mmseq_clust_folder tmp_dir : string)
  (number : Z) (row : ClipRow) (arr : NpzFile) (st : Acc)
  (enum : nat) (f : string) : result Acc :=
  prepared <-
    prepare_chain w path_to_mmseq_clust_folder tmp_dir number row arr enum f ;;
  collect_chain row st enum f (fst prepared) (snd prepared).

(** One round of [for enum, f in enumerate(Files.split(';;'))]: the [mice]
    guard, the [try] block and its bare [except] handler. *)
Definition process_chain (w : World) (path_to_mmseq_clust_folder tmp_dir : string)
  (number : Z) (row : ClipRow) (arr : NpzFile) (st : Acc)
  (chain : nat * string) : result Acc :=
  let '(enum, f) := chain in
  if negb (contains "mice" f)
  then
    match try_chain w path_to_mmseq_clust_folder tmp_dir number row arr st enum f with
    | Ok st' => Ok st'
    | Raise _ =>
        rep <- getitem (idens_of row) enum ;;
        Ok {| DF := DF st; FAILED := FAILED st ++ [[{| iden := rep |}]] |}
    end
  else Ok st.

(** [npzpath] of a row. *)
Definition npzpath_of (input_folder model : string) (row : ClipRow) : string :=
  let id := row_id row in
  let path :=
    os_path_join
      (os_path_join
         (os_path_join
            (os_path_join input_folder (str (row_chunk_id row)))
            "protienmpnn")
         id)
      (id ++ "_model_1_" ++ model)%string in
  os_path_join path "hotspots.npz".

(** One round of [for num, row in df.iterrows()]. *)
Definition process_row (w : World)
  (input_folder path_to_mmseq_clust_folder model tmp_dir : string)
  (st : Acc) (numrow : Z * ClipRow) : result Acc :=
  let '(num, row) := numrow in
  let number := num in
  arr <- np_load w (npzpath_of input_folder model row) ;;
  foldM (process_chain w path_to_mmseq_clust_folder tmp_dir number row arr)
        st (enumerate (split ";;" (row_file row))).

Definition extraction_loop (w : World)
  (input_folder path_to_mmseq_clust_folder model tmp_dir : string)
  (df : list (Z * ClipRow)) : result Acc :=
  foldM (process_row w input_folder path_to_mmseq_clust_folder model tmp_dir)
        {| DF := []; FAILED := [] |} df.

(** [df.iloc[k:, :]] *)
Definition iloc_from {A : Type} (k : Z) (l : list A) : list A :=
  if 0 <=? k then skipn (Z.to_nat k) l
  else skipn (Z.to_nat (Z.of_nat (List.length l) + k)) l.

(** The tables written with [to_csv], by file name. *)
Inductive Table : Type :=
| SuccessTable (rows : DataFrame SuccessRow)
| FailureTable (rows : DataFrame FailureRow).

Definition success_key (r : SuccessRow)
  : string * string * Z * string * string :=
  (mhc_id r, species r, mhc_types r, representative_id r, pseudo_sequence r).

Definition success_key_eqb (a b : string * string * Z * string * string) : bool :=
  let '(a1, a2, a3, a4, a5) := a in
  let '(b1, b2, b3, b4, b5) := b in
  String.eqb a1 b1 && String.eqb a2 b2 && (a3 =? b3)
  && String.eqb a4 b4 && String.eqb a5 b5.

(** The statements after the loop; the first component lists the files
    written before the function returned or raised. *)
Definition persist (st : Acc) : list (string * Table) * result unit :=
  match pd_concat (DF st) with
  | Raise e => ([], Raise e)
  | Ok DF1 =>
      let w1 := [("DF.tsv", SuccessTable DF1)] in
      let DF2 := drop_duplicates success_key_eqb success_key DF1 in
      let w2 := w1 ++ [("DF_noduplicate.tsv", SuccessTable DF2)] in
      match pd_concat (FAILED st) with
      | Raise e => (w2, Raise e)
      | Ok FAILED1 =>
          let w3 := w2 ++ [("FAILED.tsv", FailureTable FAILED1)] in
          (* the result of [FAILED.drop_duplicates(subset=['iden'])] is not
             bound to a name *)
          let _ := drop_duplicates String.eqb iden FAILED1 in
          let w4 := w3 ++ [("FAILED_noduplicate.tsv", FailureTable FAILED1)] in
          (w4, Ok tt)
      end
  end.

(** The rows the loop visits: [df] is the table read from [clip_dataframe],
    with its index, cut by [continue_from_index] when that is given and not
    zero. *)
Definition rows_from {A : Type} (continue_from_index : option Z) (df : list A)
  : list A :=
  match continue_from_index with
  | Some k => if k =? 0 then df else iloc_from k df
  | None => df
  end.

Definition match_pseudoseq (w : World) (df : list (Z * ClipRow))
  (input_folder path_to_mmseq_clust_folder model tmp_dir : string)
  (continue_from_index : option Z) : list (string * Table) * result unit :=
  let df := rows_from continue_from_index df in
  match extraction_loop w input_folder path_to_mmseq_clust_folder model tmp_dir df with
  | Raise e => ([], Raise e)
  | Ok st => persist st
  end.

(** ** Reference formulations used in the statements below *)

(** The retention test that [filter_mafft_alignment] applies to one record,
    as the code evaluates it: the record carries the reference identifier, or
    the binary64 value of (non-gap positions / reference length) x 100 is at
    least the threshold. *)
Definition retained (ref_seq_id : string) (ref_seq_length : nat)
  (coverage_threshold : float) (record : SeqRecord) : bool :=
  String.eqb (rec_id record) ref_seq_id
  || PrimFloat.leb coverage_threshold
       (PrimFloat.mul
          (PrimFloat.div (float_of_nat (aligned_length (rec_seq record)))
                         (float_of_nat ref_seq_length))
          100%float).

(** The coverage test as the specification words it, in exact arithmetic and
    for an integer threshold and a non-zero reference length:
    100 x count / length >= threshold, that is threshold x length <= 100 x
    count. *)
Definition coverage_reaches_exactly (count ref_seq_length threshold : nat)
  : bool :=
  Nat.leb (threshold * ref_seq_length) (100 * count).

(** [c * n], the character repeated. *)
Fixpoint repeat_char (c : ascii) (n : nat) : string :=
  match n with
  | O => EmptyString
  | S n' => String c (repeat_char c n')
  end.

(** The record as it is written to the filtered output. *)
Definition written_form (ref_seq_id : string) (record : SeqRecord) : SeqRecord :=
  if String.eqb (rec_id record) ref_seq_id then record
  else {| rec_id := rec_id record;
          rec_description := rec_description record;
          rec_seq := strip_gaps (rec_seq record) |}.

(** The contact positions that fall inside a sequence of length [n]. *)
Definition within_length (n : nat) (mhc_position : list Z) : list Z :=
  filter (fun p => p <? Z.of_nat n) mhc_position.

(** The paths over which [create_parsefold_input_from_representatives]
    iterates records: the entries of [list_of_dir], joined to the directory,
    that pass the guard of the loop. *)
Definition selected_files (listing : list string) (isdir : string -> bool)
  (fasta_dir iden : string) (no_iden : option string) : list string :=
  filter (fun input_fasta =>
            contains "_rep" input_fasta && contains ".fasta" input_fasta)
         (map (os_path_join fasta_dir)
              (list_of_dir listing isdir fasta_dir iden no_iden)).

(** The (record, peptide) pairs in the order files, records, peptides. *)
Definition emissions (read_fasta : string -> list SeqRecord)
  (peptides : list string) (files : list string) : list (SeqRecord * string) :=
  flat_map (fun input_fasta =>
              flat_map (fun record => map (pair record) peptides)
                       (read_fasta input_fasta))
           files.

(** One row per pair, the identifier suffixed with a counter starting at
    [num]. *)
Fixpoint numbered_rows (mhc_type : Z) (num : Z) (l : list (SeqRecord * string))
  : DataFrame InputRow :=
  match l with
  | [] => []
  | (record, peptide) :: l' =>
      {| in_peptide := peptide;
         in_mhc_seq := rec_seq record;
         in_mhc_type := mhc_type;
         in_anchors := None;
         in_id := (rec_id record ++ "_" ++ str num)%string |}
      :: numbered_rows mhc_type (num + 1) l'
  end.

(** The two assertions at the head of the [try] block, as one test. *)
Definition chain_count_ok (row : ClipRow) : bool :=
  if row_mhc_type row =? 2
  then Nat.eqb (List.length (idens_of row)) 2
       && Nat.eqb (List.length (split ";;" (row_file row))) 2
  else Nat.eqb (List.length (idens_of row)) 1
       && Nat.eqb (List.length (split ";;" (row_file row))) 1.

(** The chains of a row that pass the [mice] guard. *)
Definition guarded_chains (row : ClipRow) : list (nat * string) :=
  filter (fun chain => negb (contains "mice" (snd chain)))
         (enumerate (split ";;" (row_file row))).

(** One failure frame per chain, carrying the chain's representative
    identifier. *)
Definition failure_frames (row : ClipRow) (chains : list (nat * string))
  : list (DataFrame FailureRow) :=
  map (fun chain => [{| iden := nth (fst chain) (idens_of row) EmptyString |}]) chains.

(** The success row of one aligned record, if it has one: the record's
    sequence is not empty and neither is its pseudo-sequence. *)
Definition success_row_of (mhc_type : Z) (sp rep : string)
  (mhc_position : list Z) (record : SeqRecord) : list SuccessRow :=
  if String.eqb (rec_seq record) EmptyString then []
  else
    match filtered_seq (rec_seq record) mhc_position with
    | Ok pseudo =>
        if String.eqb pseudo EmptyString then []
        else [{| mhc_id := rec_id record;
                 species := sp;
                 mhc_types := mhc_type;
                 pseudo_sequence := pseudo;
                 representative_id := rep;
                 sequence := rec_seq record;
                 repres_pseudo_positions := join ";" (map str mhc_position) |}]
    | Raise _ => []
    end.

(** ** Example inputs *)

(** One run [r1] in chunk 3 with stored positions {0, 2, 9}; the cluster of
    representative [R1] in [A-homo] has members [M1] and [M2]; no table exists
    for any other file name. *)
Definition example_world : World := {|
  np_load := fun path =>
    if String.eqb path "runs/3/protienmpnn/r1/r1_model_1_m/hotspots.npz"
    then Ok [("arr_0", Ok [[0; 2]; [1; 0]; [0; 2]; [5; 9]])]
    else Raise OSError;
  read_cluster_tsv := fun path =>
    if String.eqb path "clust/A-homo_clust_cluster.tsv"
    then Ok [(Str "R1", Str "M1"); (Str "R1", Str "M2"); (Str "R2", Str "M3")]
    else Raise OSError;
  parse_fasta := fun path =>
    if String.eqb path "clust/A-homo_clust_all_seqs.fasta"
    then Ok [mkSeqRecord "M1" "M1" "ACD"; mkSeqRecord "M2" "M2" "ACE";
             mkSeqRecord "M3" "M3" "AAA"]
    else Raise OSError;
  run_mafft := fun _ records => Ok records
|}.

(** The same world with the stored array and the aligner's output given
    outright. *)
Definition world_with (array : NpArray) (aligned : list SeqRecord) : World := {|
  np_load := fun path =>
    if String.eqb path "runs/3/protienmpnn/r1/r1_model_1_m/hotspots.npz"
    then Ok [("arr_0", Ok array)]
    else Raise OSError;
  read_cluster_tsv := read_cluster_tsv example_world;
  parse_fasta := parse_fasta example_world;
  run_mafft := fun _ _ => Ok aligned
|}.

Definition row_A : ClipRow :=
  mkClipRow 3 "A-homo_clust_all_seqs.fasta" "r1" 1 "R1_0".

(** A row whose cluster table does not exist. *)
Definition row_B : ClipRow :=
  mkClipRow 3 "B-homo_clust_all_seqs.fasta" "r1" 1 "R9_1".

(** A row of a run whose array artifact does not exist. *)
Definition row_missing_artifact : ClipRow :=
  mkClipRow 4 "A-homo_clust_all_seqs.fasta" "r2" 1 "R1_2".

(** ** [find_longest_sequence] and [save_filtered_fasta_by_header] *)

(** The body of [for record in fasta_file], on
    [(longest_id, longest_seq, max_length)]. *)
Definition longest_step (st : string * string * nat) (record : SeqRecord)
  : string * string * nat :=
  let '(longest_id, longest_seq, max_length) := st in
  if Nat.ltb max_length (String.length (rec_seq record))
  then (rec_description record, rec_seq record, String.length (rec_seq record))
  else st.

Definition find_longest_sequence (fasta_file : list SeqRecord)
  : string * string :=
  let '(longest_id, longest_seq, _) :=
    fold_left longest_step fasta_file (EmptyString, EmptyString, O) in
  (longest_id, longest_seq).

(** The records written by [save_filtered_fasta_by_header]. *)
Definition save_filtered_fasta_by_header (input_fasta : list SeqRecord)
  (search_string : string) : list SeqRecord :=
  filter (fun record =>
            contains search_string
                     (rec_id record ++ " " ++ rec_description record)%string)
         input_fasta.

(** ** Further reference formulations *)

(** What the loop of [find_longest_sequence] knows after the records
    [processed]: the stored length is that of the stored sequence, no record
    seen is longer, and the stored pair is empty or comes from the first
    record of that length, which is not empty. *)
Definition longest_so_far (processed : list SeqRecord)
  (st : string * string * nat) : Prop :=
  let '(longest_id, longest_seq, max_length) := st in
  max_length = String.length longest_seq
  /\ (forall r, In r processed ->
                (String.length (rec_seq r) <= max_length)%nat)
  /\ ((longest_id = EmptyString /\ longest_seq = EmptyString)
      \/ exists pre r post,
           processed = pre ++ r :: post
           /\ longest_id = rec_description r
           /\ longest_seq = rec_seq r
           /\ (0 < String.length longest_seq)%nat
           /\ forall p, In p pre ->
                        (String.length (rec_seq p) < String.length longest_seq)%nat).


(** The number of chains of a table that pass the [mice] guard. *)
Definition guarded_chain_count (df : list (Z * ClipRow)) : nat :=
  list_sum (map (fun numrow => List.length (guarded_chains (snd numrow))) df).

(** A success frame as the loop builds it: not empty, every row with a
    non-empty sequence and pseudo-sequence. *)
Definition well_formed_success (frame : DataFrame SuccessRow) : Prop :=
  frame <> [] /\
  Forall (fun r => pseudo_sequence r <> EmptyString
                   /\ sequence r <> EmptyString) frame.

(** A failure frame as the loop builds it: exactly one row. *)
Definition well_formed_failure (frame : DataFrame FailureRow) : Prop :=
  List.length frame = 1%nat.

(** * Properties *)

(** ** Loops in the exception monad *)

(** A loop whose body never raises runs to its end, and an invariant of the
    body is an invariant of the loop. *)
Lemma foldM_invariant {S A : Type} (body : S -> A -> result S) (I : S -> Prop)
  (l : list A) :
  (forall s a, In a l -> I s -> exists s', body s a = Ok s' /\ I s') ->
  forall s, I s -> exists s', foldM body s l = Ok s' /\ I s'.
Proof.
  induction l as [|a l IH]; intros Hbody s Hs; simpl.
  - exists s; split; [reflexivity | assumption].
  - destruct (Hbody s a (or_introl eq_refl) Hs) as [s1 [E1 H1]].
    rewrite E1. apply IH; [|assumption].
    intros s0 a0 Hin. apply Hbody. right; assumption.
Qed.

(** If every exception the body can raise satisfies [P] and some round raises
    from every state, the loop raises an exception satisfying [P]. *)
Lemma foldM_raises {S A : Type} (body : S -> A -> result S) (P : exn -> Prop)
  (l : list A) :
  (forall s a e, body s a = Raise e -> P e) ->
  (exists a, In a l /\ forall s, exists e, body s a = Raise e) ->
  forall s, exists e, foldM body s l = Raise e /\ P e.
Proof.
  intros HP. induction l as [|a l IH]; intros [b [Hin Hb]] s.
  - destruct Hin.
  - simpl. destruct (body s a) as [s'|e] eqn:E.
    + destruct Hin as [<-|Hin].
      * destruct (Hb s) as [e He]. congruence.
      * apply IH. exists b; split; assumption.
    + exists e; split; [reflexivity | eapply HP; eassumption].
Qed.

Lemma foldM_raise_inv {S A : Type} (body : S -> A -> result S) (l : list A) :
  forall s e, foldM body s l = Raise e ->
              exists s' a, In a l /\ body s' a = Raise e.
Proof.
  induction l as [|a l IH]; intros s e H; simpl in H; [discriminate|].
  destruct (body s a) as [s'|e'] eqn:E.
  - destruct (IH _ _ H) as [s0 [a0 [Hin H0]]].
    exists s0, a0. split; [right|]; assumption.
  - injection H as ->. exists s, a. split; [left; reflexivity | assumption].
Qed.

(** ** Strings *)

Lemma length_chars (s : string) : List.length (chars s) = String.length s.
Proof. induction s as [|c s IH]; simpl; [reflexivity | now rewrite IH]. Qed.

Lemma get_nth_error (s : string) :
  forall k, String.get k s = nth_error (chars s) k.
Proof.
  induction s as [|c s IH]; intros [|k]; simpl; try reflexivity. apply IH.
Qed.

Lemma get_in_range (s : string) (k : nat) :
  (k < String.length s)%nat -> exists c, String.get k s = Some c.
Proof.
  intros Hk. rewrite get_nth_error.
  destruct (nth_error (chars s) k) as [c|] eqn:E; [now exists c|].
  apply nth_error_None in E. rewrite length_chars in E. lia.
Qed.

Lemma remove_char_absent (c : ascii) (s : string) :
  ~ In c (chars (remove_char c s)).
Proof.
  induction s as [|a s IH]; simpl; [tauto|].
  destruct (Ascii.eqb a c) eqn:E; [assumption|].
  simpl. intros [->|H]; [|tauto].
  rewrite Ascii.eqb_refl in E. discriminate.
Qed.

Lemma remove_char_subset (c x : ascii) (s : string) :
  In x (chars (remove_char c s)) -> In x (chars s).
Proof.
  induction s as [|a s IH]; simpl; [tauto|].
  destruct (Ascii.eqb a c); simpl; tauto.
Qed.

Lemma strip_gaps_clean (s : string) :
  ~ In "-"%char (chars (strip_gaps s)) /\ ~ In "X"%char (chars (strip_gaps s)).
Proof.
  unfold strip_gaps. split.
  - intros H. apply remove_char_subset in H. revert H. apply remove_char_absent.
  - apply remove_char_absent.
Qed.

Lemma split_from_nonempty (sep : string) (s : string) :
  forall skip, split_from sep skip s <> [].
Proof.
  induction s as [|c s IH]; intros skip; simpl; [discriminate|].
  destruct skip; [|apply IH].
  match goal with |- (if ?b then _ else _) <> _ => destruct b end;
    [discriminate|].
  destruct (split_from sep 0 s); discriminate.
Qed.

Lemma split_length_pos (sep s : string) : (1 <= List.length (split sep s))%nat.
Proof.
  unfold split. pose proof (split_from_nonempty sep s 0) as H.
  destruct (split_from sep 0 s); [congruence | simpl; lia].
Qed.

(** ** [filter_mafft_alignment] *)

Lemma compute_coverage_defined (ref_seq_length : nat) (query_seq : string) :
  (0 < ref_seq_length)%nat ->
  compute_coverage ref_seq_length query_seq =
  Ok (PrimFloat.mul
        (PrimFloat.div (float_of_nat (aligned_length query_seq))
                       (float_of_nat ref_seq_length))
        100%float).
Proof.
  intros H. unfold compute_coverage.
  destruct (Nat.eqb_spec ref_seq_length 0); [lia | reflexivity].
Qed.

Lemma filter_record_spec (ref_seq_id : string) (ref_seq_length : nat)
  (coverage_threshold : float) (acc : list SeqRecord) (record : SeqRecord) :
  (0 < ref_seq_length)%nat ->
  filter_record ref_seq_id ref_seq_length coverage_threshold acc record
  = Ok (acc ++ if retained ref_seq_id ref_seq_length coverage_threshold record
               then [written_form ref_seq_id record] else []).
Proof.
  intros Hlen. unfold filter_record, retained, written_form.
  destruct (String.eqb (rec_id record) ref_seq_id); simpl; [reflexivity|].
  rewrite compute_coverage_defined by assumption. simpl.
  destruct (PrimFloat.leb coverage_threshold _); [reflexivity|].
  now rewrite app_nil_r.
Qed.

Lemma filter_loop_spec (ref_seq_id : string) (ref_seq_length : nat)
  (coverage_threshold : float) (alignment : list SeqRecord) :
  (0 < ref_seq_length)%nat ->
  forall acc,
    foldM (filter_record ref_seq_id ref_seq_length coverage_threshold) acc alignment
    = Ok (acc ++ map (written_form ref_seq_id)
                     (filter (retained ref_seq_id ref_seq_length coverage_threshold)
                             alignment)).
Proof.
  intros Hlen. induction alignment as [|r l IH]; intros acc.
  - simpl. now rewrite app_nil_r.
  - cbn [foldM filter]. rewrite filter_record_spec by assumption.
    rewrite IH, <- app_assoc.
    destruct (retained ref_seq_id ref_seq_length coverage_threshold r);
      reflexivity.
Qed.

(** Every record written under an identifier other than the reference's has
    neither gap nor placeholder characters. *)
Lemma filter_mafft_alignment_strips_queries
  (alignment : list SeqRecord) (ref : SeqRecord) (rest : list SeqRecord)
  (coverage_threshold : float) (filtered : list SeqRecord) (counts : nat * nat)
  (record : SeqRecord) :
  (0 < String.length (rec_seq ref))%nat ->
  filter_mafft_alignment alignment (ref :: rest) coverage_threshold
    = Ok (filtered, counts) ->
  In record filtered ->
  rec_id record <> rec_id ref ->
  ~ In "-"%char (chars (rec_seq record)) /\ ~ In "X"%char (chars (rec_seq record)).
Proof.
  intros Hlen Hrun Hin Hid. unfold filter_mafft_alignment in Hrun.
  rewrite filter_loop_spec in Hrun by assumption. simpl in Hrun.
  inversion Hrun; subst filtered.
  apply in_map_iff in Hin. destruct Hin as [r [<- _]].
  unfold written_form in *.
  destruct (String.eqb_spec (rec_id r) (rec_id ref)) as [E|E].
  - contradiction.
  - simpl. apply strip_gaps_clean.
Qed.

(** C3, as the code has it.  In [filter_mafft_alignment], with a reference of
    non-zero length, the records written are exactly the records of the
    alignment, in order, that carry the reference identifier or whose
    coverage, computed in binary64 floating point as (count of non-gap
    positions / reference length) x 100, is at least the threshold; records
    with the reference identifier are written as they are, the others with
    their gaps stripped, and the returned counts are the sizes of the
    alignment and of that selection.  In particular, against the reference
    [AAAACCCC] the query aligned as [AAAA----] is retained at threshold 50 and
    excluded at threshold 51, and the reference record is retained at both. *)
Theorem C3_coverage_filter :
  forall (alignment : list SeqRecord) (ref : SeqRecord) (rest : list SeqRecord)
         (coverage_threshold : float),
    (0 < String.length (rec_seq ref))%nat ->
    let keep := fun record : SeqRecord =>
      String.eqb (rec_id record) (rec_id ref)
      || PrimFloat.leb coverage_threshold
           (PrimFloat.mul
              (PrimFloat.div
                 (float_of_nat (aligned_length (rec_seq record)))
                 (float_of_nat (String.length (rec_seq ref))))
              100%float) in
    filter_mafft_alignment alignment (ref :: rest) coverage_threshold
      = Ok (map (written_form (rec_id ref)) (filter keep alignment),
            (List.length alignment, List.length (filter keep alignment)))
    /\ (forall record,
          In record alignment -> rec_id record = rec_id ref ->
          In record (map (written_form (rec_id ref)) (filter keep alignment)))
    /\ (let reference := mkSeqRecord "ref" "ref" "AAAACCCC" in
        let query := mkSeqRecord "query" "query" "AAAA----" in
        filter_mafft_alignment [reference; query] [reference] 50%float
          = Ok ([reference; mkSeqRecord "query" "query" "AAAA"], (2%nat, 2%nat))
        /\ filter_mafft_alignment [reference; query] [reference] 51%float
           = Ok ([reference], (2%nat, 1%nat))).
Proof.
  intros alignment ref rest thr Hlen keep.
  change keep with (retained (rec_id ref) (String.length (rec_seq ref)) thr).
  split; [|split].
  - unfold filter_mafft_alignment.
    rewrite filter_loop_spec by assumption. simpl.
    now rewrite length_map.
  - intros record Hin Hid. apply in_map_iff. exists record.
    unfold written_form, retained.
    rewrite (proj2 (String.eqb_eq _ _) Hid). split; [reflexivity|].
    apply filter_In. split; [assumption|].
    now rewrite (proj2 (String.eqb_eq _ _) Hid).
  - split; vm_compute; reflexivity.
Qed.

Lemma C3_coverage_filter_witness :
  (0 < String.length (rec_seq (mkSeqRecord "ref" "ref" "AAAACCCC")))%nat /\
  filter_mafft_alignment
    [mkSeqRecord "ref" "ref" "AAAACCCC"; mkSeqRecord "q1" "q1" "AAAA----";
     mkSeqRecord "q2" "q2" "A-------"]
    [mkSeqRecord "ref" "ref" "AAAACCCC"] 50%float
  = Ok ([mkSeqRecord "ref" "ref" "AAAACCCC"; mkSeqRecord "q1" "q1" "AAAA"],
        (3%nat, 2%nat)).
Proof.
  split; [simpl; lia|].
  exact (proj1 (C3_coverage_filter
                  [mkSeqRecord "ref" "ref" "AAAACCCC";
                   mkSeqRecord "q1" "q1" "AAAA----";
                   mkSeqRecord "q2" "q2" "A-------"]
                  (mkSeqRecord "ref" "ref" "AAAACCCC") [] 50%float
                  (Nat.lt_0_succ 7))).
Defined.

(** C3 as stated fails at a threshold that the exact coverage meets: a query
    with 29 non-gap positions against a reference of length 100 has coverage
    100 x 29 / 100 = 29, which reaches the threshold 29, and is not the
    reference; the code computes (29 / 100) x 100 in binary64, which lies
    below 29, and drops the record. *)
Lemma C3_exact_coverage_at_threshold_dropped :
  let reference := mkSeqRecord "ref" "ref" (repeat_char "A" 100) in
  let query :=
    mkSeqRecord "query" "query"
                (repeat_char "A" 29 ++ repeat_char "-" 71)%string in
  String.length (rec_seq reference) = 100%nat
  /\ String.length (rec_seq query) = 100%nat
  /\ aligned_length (rec_seq query) = 29%nat
  /\ coverage_reaches_exactly 29 100 29 = true
  /\ rec_id query <> rec_id reference
  /\ filter_mafft_alignment [reference; query] [reference] 29%float
     = Ok ([reference], (2%nat, 1%nat)).
Proof.
  repeat split; try (vm_compute; reflexivity). discriminate.
Qed.

(** The coverage is a binary64 value and the comparison is made on it: for 29
    non-gap positions against a reference of length 100 the computed value
    is 28.999999999999996 (0x1.cffffffffffffp+4), and the threshold 29 is not
    reached. *)
Remark coverage_is_rounded :
  compute_coverage 100 "AAAAAAAAAAAAAAAAAAAAAAAAAAAAA-"
  = Ok (PrimFloat.mul (PrimFloat.div (float_of_nat 29) (float_of_nat 100))
                      100%float)
  /\ PrimFloat.leb 29%float
       (PrimFloat.mul (PrimFloat.div (float_of_nat 29) (float_of_nat 100))
                      100%float) = false
  /\ PrimFloat.leb 0x1.cffffffffffffp+4%float
       (PrimFloat.mul (PrimFloat.div (float_of_nat 29) (float_of_nat 100))
                      100%float) = true.
Proof.
  repeat split; vm_compute; reflexivity.
Qed.

(** C7 fails on the reference branch: a record carrying the reference
    identifier is written as it stands in the alignment.  With the reference
    [AAXACCCC] and an aligned copy [AAAA----] under the same identifier, both
    are written unchanged, placeholder and gap characters included. *)
Theorem C7_reference_written_unstripped :
  let reference := mkSeqRecord "ref" "ref" "AAXACCCC" in
  let copy := mkSeqRecord "ref" "ref fragment" "AAAA----" in
  filter_mafft_alignment [reference; copy] [reference] 50%float
    = Ok ([reference; copy], (2%nat, 2%nat))
  /\ In "X"%char (chars (rec_seq reference))
  /\ In "-"%char (chars (rec_seq copy)).
Proof.
  repeat split; vm_compute; auto 10.
Qed.

(** ** Contact positions and pseudo-sequences *)

Lemma insert_unique_In (x y : Z) (l : list Z) :
  In y (insert_unique x l) <-> y = x \/ In y l.
Proof.
  induction l as [|z l IH]; simpl; [intuition|].
  destruct (Z.ltb_spec x z); simpl; [intuition|].
  destruct (Z.eqb_spec x z); simpl; [subst; intuition|].
  rewrite IH. intuition.
Qed.

Lemma insert_unique_sorted (x : Z) (l : list Z) :
  StronglySorted Z.lt l -> StronglySorted Z.lt (insert_unique x l).
Proof.
  induction 1 as [|z l Hs IH Hz]; simpl.
  - constructor; constructor.
  - destruct (Z.ltb_spec x z).
    + constructor; [constructor; assumption|].
      constructor; [assumption|].
      eapply Forall_impl; [|exact Hz]. simpl. intros; lia.
    + destruct (Z.eqb_spec x z); [constructor; assumption|].
      constructor; [assumption|].
      apply Forall_forall. intros y Hy.
      apply insert_unique_In in Hy. destruct Hy as [->|Hy]; [lia|].
      rewrite Forall_forall in Hz. now apply Hz.
Qed.

Lemma np_unique_sorted (l : list Z) : StronglySorted Z.lt (np_unique l).
Proof.
  induction l as [|x l IH]; simpl; [constructor|].
  now apply insert_unique_sorted.
Qed.

Lemma np_unique_In (l : list Z) (y : Z) : In y (np_unique l) <-> In y l.
Proof.
  induction l as [|x l IH]; simpl; [tauto|].
  rewrite insert_unique_In, IH. intuition.
Qed.

Lemma seq_getitem_in_range (s : string) (i : Z) :
  0 <= i < Z.of_nat (String.length s) ->
  exists c, String.get (Z.to_nat i) s = Some c /\ seq_getitem s i = Ok c.
Proof.
  intros Hi. unfold seq_getitem.
  destruct (Z.ltb_spec i 0); [lia|].
  destruct (Z.leb_spec 0 i); [|lia].
  destruct (Z.ltb_spec i (Z.of_nat (String.length s))); [|lia].
  simpl. destruct (get_in_range s (Z.to_nat i)) as [c Hc]; [lia|].
  exists c. now rewrite Hc.
Qed.

(** On non-negative positions the generator expression never raises and
    picks, in the order of the positions, the residue at each position below
    the sequence's length. *)
Lemma filtered_seq_spec (s : string) (mhc_position : list Z) :
  Forall (fun p => 0 <= p) mhc_position ->
  exists pseudo,
    filtered_seq s mhc_position = Ok pseudo /\
    map Some (chars pseudo)
    = map (fun p => String.get (Z.to_nat p) s)
          (within_length (String.length s) mhc_position).
Proof.
  induction 1 as [|p l Hp Hl IH]; simpl.
  - exists EmptyString. split; reflexivity.
  - destruct IH as [rest [Erest Hrest]].
    destruct (Z.ltb_spec p (Z.of_nat (String.length s))).
    + destruct (seq_getitem_in_range s p) as [c [Hc Ec]]; [lia|].
      rewrite Ec, Erest. simpl. exists (String c rest).
      split; [reflexivity|]. simpl. now rewrite Hc, Hrest.
    + exists rest. split; assumption.
Qed.

(** C1. In the body of the record loop of [match_pseudoseq], for every aligned
    record with a non-empty sequence and every stored column of non-negative
    positions (the chain's file name giving a species and the chain having a
    representative identifier): [mhc_position = np.unique(column)] is strictly
    increasing and has exactly the column's values; the pseudo-sequence is
    built without an exception and its characters are, in position order, the
    residues of the record's sequence at exactly the positions strictly below
    the sequence's length, the others being skipped; its length is the number
    of those positions, at most the size of the position set; and this string
    is what the loop stores: when it is not empty the record's row, with this
    pseudo-sequence, is appended to the rows built so far, and when it is
    empty nothing is appended. *)
Theorem C1_pseudo_sequence_of_contact_positions :
  forall (mhc_type : Z) (f : string) (idens : list string) (enum : nat)
         (rows : list SuccessRow) (record : SeqRecord) (column : list Z)
         (sp rep : string),
    rec_seq record <> EmptyString ->
    Forall (fun p => 0 <= p) column ->
    species_of f = Ok sp ->
    nth_error idens enum = Some rep ->
    let s := rec_seq record in
    let mhc_position := np_unique column in
    let within := within_length (String.length s) mhc_position in
    StronglySorted Z.lt mhc_position
    /\ (forall p, In p mhc_position <-> In p column)
    /\ (forall p, In p within <->
                  In p mhc_position /\ p < Z.of_nat (String.length s))
    /\ exists pseudo,
         filtered_seq s mhc_position = Ok pseudo
         /\ map Some (chars pseudo)
            = map (fun p => String.get (Z.to_nat p) s) within
         /\ String.length pseudo = List.length within
         /\ (String.length pseudo <= List.length mhc_position)%nat
         /\ extract_record mhc_type f idens enum mhc_position rows record
            = Ok (if String.eqb pseudo EmptyString then rows
                  else rows ++
                       [{| mhc_id := rec_id record;
                           species := sp;
                           mhc_types := mhc_type;
                           pseudo_sequence := pseudo;
                           representative_id := rep;
                           sequence := s;
                           repres_pseudo_positions :=
                             join ";" (map str mhc_position) |}]).
Proof.
  intros mhc_type f idens enum rows record column sp rep
         Hseq Hcol Hsp Hrep s mhc_position within.
  split; [apply np_unique_sorted|].
  split; [apply np_unique_In|].
  split.
  { intros p. unfold within, within_length. rewrite filter_In.
    now rewrite Z.ltb_lt. }
  destruct (filtered_seq_spec s mhc_position) as [pseudo [E H]].
  { apply Forall_forall. intros p Hp.
    apply (proj1 (np_unique_In column p)) in Hp.
    rewrite Forall_forall in Hcol. now apply Hcol. }
  exists pseudo. split; [assumption|]. split; [assumption|].
  assert (String.length pseudo = List.length within) as Hlen.
  { rewrite <- length_chars, <- (length_map Some), H. apply length_map. }
  split; [assumption|].
  split; [rewrite Hlen; unfold within, within_length; apply filter_length_le|].
  unfold extract_record. fold s.
  destruct (String.eqb_spec s EmptyString) as [Hs|Hs]; [contradiction|].
  cbn [negb]. rewrite E. cbn [bind].
  destruct (String.eqb pseudo EmptyString); cbn [negb]; [reflexivity|].
  unfold getitem. rewrite Hsp, Hrep. reflexivity.
Qed.

Lemma C1_pseudo_sequence_of_contact_positions_witness :
  rec_seq (mkSeqRecord "M1" "M1" "ACDEF") <> EmptyString /\
  Forall (fun p => 0 <= p) [4; 1; 9; 1] /\
  extract_record 1 "A-homo_clust_all_seqs.fasta" ["R1"] 0
                 (np_unique [4; 1; 9; 1]) [] (mkSeqRecord "M1" "M1" "ACDEF")
  = Ok [mkSuccessRow "M1" "homo" 1 "CF" "R1" "ACDEF" "1;4;9"].
Proof.
  split; [discriminate|].
  split; [repeat constructor; lia|].
  destruct (C1_pseudo_sequence_of_contact_positions
              1 "A-homo_clust_all_seqs.fasta" ["R1"] 0%nat []
              (mkSeqRecord "M1" "M1" "ACDEF") [4; 1; 9; 1] "homo" "R1")
    as [_ [_ [_ [pseudo [E [_ [_ [_ Hrow]]]]]]]].
  - discriminate.
  - repeat constructor; lia.
  - reflexivity.
  - reflexivity.
  - assert (pseudo = "CF") as ->
      by (vm_compute in E; now injection E as <-).
    exact Hrow.
Defined.

(** ** [mhc2_cluster_combination_seqs] *)

Lemma pair_with_beta_raises_assertion (read_fasta : string -> list SeqRecord)
  (files : list string) (out_dir sp key alpha : string)
  (written : list PairedFasta) (val : string) (e : exn) :
  pair_with_beta read_fasta files out_dir sp key alpha written val = Raise e ->
  e = AssertionError.
Proof.
  unfold pair_with_beta.
  destruct (matching files val sp) as [|b [|b' l]]; simpl; congruence.
Qed.

Lemma pair_with_beta_not_unique (read_fasta : string -> list SeqRecord)
  (files : list string) (out_dir sp key alpha : string)
  (written : list PairedFasta) (val : string) :
  List.length (matching files val sp) <> 1%nat ->
  pair_with_beta read_fasta files out_dir sp key alpha written val
  = Raise AssertionError.
Proof.
  unfold pair_with_beta.
  destruct (matching files val sp) as [|b [|b' l]]; simpl; congruence.
Qed.

Lemma pair_genes_raises_assertion (read_fasta : string -> list SeqRecord)
  (files : list string) (out_dir sp : string)
  (written : list PairedFasta) (kv : string * string) (e : exn) :
  pair_genes read_fasta files out_dir sp written kv = Raise e ->
  e = AssertionError.
Proof.
  destruct kv as [key value]. unfold pair_genes.
  destruct (matching files key sp) as [|a [|a' l]]; simpl; try congruence.
  intros H. apply foldM_raise_inv in H. destruct H as [s' [val [_ H]]].
  eapply pair_with_beta_raises_assertion; eassumption.
Qed.

(** The round of one gene pair fails its assertion, whatever was written
    before, when the alpha gene matches several files, or matches one file
    while one of the beta genes does not match exactly one. *)
Lemma pair_genes_asserts (read_fasta : string -> list SeqRecord)
  (files : list string) (out_dir sp key value : string)
  (written : list PairedFasta) :
  (1 < List.length (matching files key sp))%nat
  \/ (List.length (matching files key sp) = 1%nat
      /\ exists val, In val (split "-" value)
                     /\ List.length (matching files val sp) <> 1%nat) ->
  pair_genes read_fasta files out_dir sp written (key, value)
  = Raise AssertionError.
Proof.
  unfold pair_genes. intros [Hmany | [Hone [val [Hval Hbeta]]]].
  - destruct (matching files key sp) as [|a [|a' l]]; simpl in *;
      [lia | lia | reflexivity].
  - destruct (matching files key sp) as [|a [|a' l]]; simpl in *;
      try discriminate.
    destruct (foldM_raises
                (pair_with_beta read_fasta files out_dir sp key a)
                (fun e => e = AssertionError) (split "-" value)) with (s := written)
      as [e [E ->]].
    + intros s v e. apply pair_with_beta_raises_assertion.
    + exists val. split; [assumption|]. intros s. exists AssertionError.
      now apply pair_with_beta_not_unique.
    + exact E.
Qed.

(** C9, as the code has it.  For a species and a gene pair of its table: if
    more than one file matches the alpha gene, or exactly one file matches the
    alpha gene and the number of files matching one of its beta genes is not
    exactly one (none or several), the run ends in an assertion failure and
    returns nothing.  (With no file for the alpha gene the pair is skipped and
    its beta side is not examined.) *)
Theorem C9_pairing_assertions_abort :
  forall (listing : list string) (read_fasta : string -> list SeqRecord)
         (path_to_cluster_representatives out_dir iden_for_representative : string)
         (sp key value : string),
    let files :=
      map (os_path_join path_to_cluster_representatives)
          (filter (fun i => contains iden_for_representative i
                            && contains "fasta" i && first_char_is_D i) listing) in
    In sp SPECIES ->
    In (key, value) (DICT sp) ->
    ((1 < List.length (matching files key sp))%nat
     \/ (List.length (matching files key sp) = 1%nat
         /\ exists val, In val (split "-" value)
                        /\ List.length (matching files val sp) <> 1%nat)) ->
    mhc2_cluster_combination_seqs listing read_fasta
      path_to_cluster_representatives out_dir iden_for_representative
    = Raise AssertionError.
Proof.
  intros listing read_fasta path out_dir iden_rep sp key value files Hsp Hkv Hbad.
  unfold mhc2_cluster_combination_seqs. fold files.
  match goal with |- foldM ?body ?s0 ?l = _ =>
    destruct (foldM_raises body (fun e => e = AssertionError) l) with (s := s0)
      as [e [E ->]]; [| |exact E]
  end.
  - intros s a e H. apply foldM_raise_inv in H.
    destruct H as [s' [kv [_ H]]].
    eapply pair_genes_raises_assertion; eassumption.
  - exists sp. split; [assumption|]. intros s.
    match goal with |- exists e, foldM ?body s ?l = _ =>
      destruct (foldM_raises body (fun e => e = AssertionError) l) with (s := s)
        as [e [E _]]; [| |exists e; exact E]
    end.
    + intros s0 kv e. apply pair_genes_raises_assertion.
    + exists (key, value). split; [assumption|]. intros s0.
      exists AssertionError. now apply pair_genes_asserts.
Qed.

Lemma C9_pairing_assertions_abort_witness :
  In "homo" SPECIES /\
  In ("DRA", "DRB1-DRB3-DRB4-DRB5") (DICT "homo") /\
  mhc2_cluster_combination_seqs
    ["DRA-homo_clust_rep_seq.fasta"; "DRB1-homo_clust_rep_seq.fasta"]
    (fun _ => []) "clust" "out" "_rep"
  = Raise AssertionError.
Proof.
  split; [simpl; auto|].
  split; [simpl; auto 10|].
  apply (C9_pairing_assertions_abort
           ["DRA-homo_clust_rep_seq.fasta"; "DRB1-homo_clust_rep_seq.fasta"]
           (fun _ => []) "clust" "out" "_rep"
           "homo" "DRA" "DRB1-DRB3-DRB4-DRB5").
  - simpl; auto.
  - simpl; auto 10.
  - right. split; [reflexivity|].
    exists "DRB3". split; [simpl; auto | discriminate].
Defined.

(** C9 as stated fails where no file matches the alpha gene: two files match
    the beta gene [DMB] of the human pair (DMA, DMB), and the run completes
    without an assertion failure. *)
Lemma C9_beta_unchecked_without_alpha :
  let listing := ["DMB-homo_clust_rep_seq.fasta"; "DMB-homo_b_clust_rep_seq.fasta"] in
  let files := map (os_path_join "clust") listing in
  In "homo" SPECIES
  /\ In ("DMA", "DMB") (DICT "homo")
  /\ In "DMB" (split "-" "DMB")
  /\ List.length (matching files "DMB" "homo") = 2%nat
  /\ mhc2_cluster_combination_seqs listing (fun _ => []) "clust" "out" "_rep"
     = Ok [].
Proof.
  repeat split; try (simpl; auto 10; fail); vm_compute; reflexivity.
Qed.

(** ** [create_parsefold_input_from_representatives] *)

Lemma chars_append (a b : string) : chars (a ++ b) = chars a ++ chars b.
Proof. induction a as [|c a IH]; simpl; [reflexivity | now rewrite IH]. Qed.

Lemma string_of_uint_digits (d : Decimal.uint) :
  ~ In "_"%char (chars (DecimalString.NilEmpty.string_of_uint d)).
Proof.
  induction d; simpl; try tauto; intros [H|H]; try discriminate; tauto.
Qed.

Lemma str_no_underscore (n : Z) : ~ In "_"%char (chars (str n)).
Proof.
  unfold str. destruct (Z.to_int n) as [d|d]; simpl.
  - apply string_of_uint_digits.
  - intros [H|H]; [discriminate|]. revert H. apply string_of_uint_digits.
Qed.

Lemma str_injective (a b : Z) : str a = str b -> a = b.
Proof.
  unfold str. intros H.
  assert (Some (Z.to_int a) = Some (Z.to_int b)) as E.
  { rewrite <- !DecimalString.NilEmpty.isi. now rewrite H. }
  injection E as E.
  rewrite <- (DecimalZ.of_to a), <- (DecimalZ.of_to b). now rewrite E.
Qed.

(** The text after the last underscore determines the suffix. *)
Lemma suffix_after_underscore (a : string) :
  forall b c d : string,
    ~ In "_"%char (chars c) -> ~ In "_"%char (chars d) ->
    (a ++ "_" ++ c)%string = (b ++ "_" ++ d)%string -> c = d.
Proof.
  induction a as [|x a IH]; intros [|y b] c d Hc Hd H; simpl in H.
  - now injection H.
  - injection H as <- ->. exfalso. apply Hc.
    rewrite chars_append. apply in_or_app. right. left. reflexivity.
  - injection H as -> <-. exfalso. apply Hd.
    rewrite chars_append. apply in_or_app. right. left. reflexivity.
  - injection H as _ H. eapply IH; eassumption.
Qed.

Lemma numbered_id_injective (id1 id2 : string) (n1 n2 : Z) :
  (id1 ++ "_" ++ str n1)%string = (id2 ++ "_" ++ str n2)%string -> n1 = n2.
Proof.
  intros H. apply str_injective.
  eapply suffix_after_underscore; [| |exact H]; apply str_no_underscore.
Qed.

Lemma numbered_rows_app (mhc_type : Z) (l1 l2 : list (SeqRecord * string)) :
  forall num,
    numbered_rows mhc_type num (l1 ++ l2)
    = numbered_rows mhc_type num l1
      ++ numbered_rows mhc_type (num + Z.of_nat (List.length l1)) l2.
Proof.
  induction l1 as [|[r p] l1 IH]; intros num; simpl.
  - now rewrite Z.add_0_r.
  - rewrite IH. do 3 f_equal. lia.
Qed.

Lemma numbered_rows_length (mhc_type : Z) (l : list (SeqRecord * string)) :
  forall num, List.length (numbered_rows mhc_type num l) = List.length l.
Proof.
  induction l as [|[r p] l IH]; intros num; simpl; [reflexivity|].
  now rewrite IH.
Qed.

Lemma numbered_rows_nth (mhc_type : Z) (l : list (SeqRecord * string)) :
  forall num k record peptide,
    nth_error l k = Some (record, peptide) ->
    nth_error (numbered_rows mhc_type num l) k
    = Some {| in_peptide := peptide;
              in_mhc_seq := rec_seq record;
              in_mhc_type := mhc_type;
              in_anchors := None;
              in_id := (rec_id record ++ "_" ++ str (num + Z.of_nat k))%string |}.
Proof.
  induction l as [|[r p] l IH]; intros num [|k] record peptide H;
    simpl in H; try discriminate.
  - injection H as -> ->. simpl. now rewrite Z.add_0_r.
  - cbn [numbered_rows nth_error]. rewrite (IH _ _ _ _ H).
    replace (num + 1 + Z.of_nat k) with (num + Z.of_nat (S k)) by lia.
    reflexivity.
Qed.

Lemma numbered_rows_counter (mhc_type : Z) (l : list (SeqRecord * string)) :
  forall num i,
    In i (map in_id (numbered_rows mhc_type num l)) ->
    exists record n, num <= n /\ i = (rec_id record ++ "_" ++ str n)%string.
Proof.
  induction l as [|[r p] l IH]; intros num i H; simpl in H; [tauto|].
  destruct H as [<-|H].
  - exists r, num. split; [lia | reflexivity].
  - destruct (IH _ _ H) as [r' [n [Hn ->]]]. exists r', n. split; [lia | reflexivity].
Qed.

Lemma numbered_rows_NoDup (mhc_type : Z) (l : list (SeqRecord * string)) :
  forall num, NoDup (map in_id (numbered_rows mhc_type num l)).
Proof.
  induction l as [|[r p] l IH]; intros num; simpl; constructor.
  - intros H. apply numbered_rows_counter in H.
    destruct H as [r' [n [Hn E]]].
    apply numbered_id_injective in E. lia.
  - apply IH.
Qed.

Lemma emit_record_spec (peptides : list string) (mhc_type : Z)
  (record : SeqRecord) :
  forall num DF,
    emit_record peptides mhc_type (num, DF) record
    = (num + Z.of_nat (List.length peptides),
       DF ++ map (fun row => [row])
                 (numbered_rows mhc_type num (map (pair record) peptides))).
Proof.
  unfold emit_record.
  induction peptides as [|p l IH]; intros num DF; simpl.
  - now rewrite Z.add_0_r, app_nil_r.
  - rewrite IH, <- app_assoc. simpl. f_equal. lia.
Qed.

Lemma emit_records_spec (peptides : list string) (mhc_type : Z)
  (records : list SeqRecord) :
  forall num DF,
    let em := flat_map (fun record => map (pair record) peptides) records in
    fold_left (emit_record peptides mhc_type) records (num, DF)
    = (num + Z.of_nat (List.length em),
       DF ++ map (fun row => [row]) (numbered_rows mhc_type num em)).
Proof.
  induction records as [|r l IH]; intros num DF; simpl.
  - now rewrite Z.add_0_r, app_nil_r.
  - rewrite emit_record_spec, IH.
    rewrite numbered_rows_app, map_app, length_app, !length_map, <- app_assoc.
    f_equal. lia.
Qed.

Lemma emit_files_spec (read_fasta : string -> list SeqRecord)
  (peptides : list string) (mhc_type : Z) (paths : list string) :
  forall num DF,
    let em := emissions read_fasta peptides
                (filter (fun p => contains "_rep" p && contains ".fasta" p) paths) in
    fold_left (emit_file read_fasta peptides mhc_type) paths (num, DF)
    = (num + Z.of_nat (List.length em),
       DF ++ map (fun row => [row]) (numbered_rows mhc_type num em)).
Proof.
  unfold emissions.
  induction paths as [|f l IH]; intros num DF; simpl.
  - now rewrite Z.add_0_r, app_nil_r.
  - unfold emit_file at 2.
    destruct (contains "_rep" f && contains ".fasta" f); simpl.
    + rewrite emit_records_spec, IH.
      rewrite numbered_rows_app, map_app, length_app, <- app_assoc.
      f_equal. lia.
    + apply IH.
Qed.

Lemma concat_singletons {A : Type} (l : list A) :
  List.concat (map (fun x => [x]) l) = l.
Proof. induction l as [|a l IH]; simpl; [reflexivity | now rewrite IH]. Qed.

(** C8, as the code has it.  For a declared class 1 or 2, over the files that
    the function iterates (listed, not directories, containing the caller's
    marker and not the excluded one, and whose joined path contains [_rep]
    and [.fasta]), every record and every configured peptide (by default the
    9-residue peptide for class 1 and the 14-residue peptide for class 2)
    gives exactly one row (peptide, receptor sequence, receptor type, no
    anchors, identifier), in the order files, records, peptides; the
    identifier of the k-th row is the record identifier followed by [_] and
    [num + k], and all identifiers of the table are distinct.  (At least one
    row must be emitted for the function to return.) *)
Theorem C8_one_row_per_record_and_peptide :
  forall (listing : list string) (isdir : string -> bool)
         (read_fasta : string -> list SeqRecord)
         (fasta_dir : string) (peptides : list string) (mhc_type : Z)
         (iden : string) (num : Z) (no_iden : option string),
    mhc_type = 1 \/ mhc_type = 2 ->
    let used := default_peptides peptides mhc_type in
    let em := emissions read_fasta used
                (selected_files listing isdir fasta_dir iden no_iden) in
    em <> [] ->
    let rows := numbered_rows mhc_type num em in
    create_parsefold_input_from_representatives
      listing isdir read_fasta fasta_dir peptides mhc_type iden num no_iden
    = Ok rows
    /\ List.length rows = List.length em
    /\ (forall k record peptide,
          nth_error em k = Some (record, peptide) ->
          nth_error rows k
          = Some {| in_peptide := peptide;
                    in_mhc_seq := rec_seq record;
                    in_mhc_type := mhc_type;
                    in_anchors := None;
                    in_id := (rec_id record ++ "_"
                              ++ str (num + Z.of_nat k))%string |})
    /\ NoDup (map in_id rows)
    /\ (peptides = [] ->
        used = if mhc_type =? 1 then ["MRMATPLLM"] else ["MRMATPLLMQALPM"])
    /\ String.length "MRMATPLLM" = 9%nat
    /\ String.length "MRMATPLLMQALPM" = 14%nat.
Proof.
  intros listing isdir read_fasta fasta_dir peptides mhc_type iden num no_iden
         Htype used em Hem rows.
  split.
  { unfold create_parsefold_input_from_representatives.
    assert ((mhc_type =? 2) || (mhc_type =? 1) = true) as ->
      by (destruct Htype as [-> | ->]; reflexivity).
    cbn [assert bind]. fold used.
    rewrite emit_files_spec. cbn [app].
    fold (selected_files listing isdir fasta_dir iden no_iden). fold em. fold rows.
    unfold pd_concat.
    destruct (map (fun row => [row]) rows) as [|d l] eqn:E.
    - exfalso. apply Hem. apply map_eq_nil in E.
      apply length_zero_iff_nil.
      rewrite <- (numbered_rows_length mhc_type em num). fold rows.
      now rewrite E.
    - rewrite <- E. now rewrite concat_singletons. }
  split; [apply numbered_rows_length|].
  split; [intros k record peptide; apply numbered_rows_nth|].
  split; [apply numbered_rows_NoDup|].
  split; [|split; reflexivity].
  intros ->. unfold used.
  destruct Htype as [-> | ->]; reflexivity.
Qed.

Lemma C8_one_row_per_record_and_peptide_witness :
  (1 = 1 \/ 1 = 2) /\
  create_parsefold_input_from_representatives
    ["HLA-A_clust_rep_seq.fasta"; "notes.txt"] (fun _ => false)
    (fun _ => [mkSeqRecord "A0101" "A0101" "GSHSMRY"; mkSeqRecord "A0201" "A0201" "GSHSMRF"])
    "clust" ["AAA"; "CCC"] 1 "_rep" 7 None
  = Ok [mkInputRow "AAA" "GSHSMRY" 1 None "A0101_7";
        mkInputRow "CCC" "GSHSMRY" 1 None "A0101_8";
        mkInputRow "AAA" "GSHSMRF" 1 None "A0201_9";
        mkInputRow "CCC" "GSHSMRF" 1 None "A0201_10"].
Proof.
  split; [left; reflexivity|].
  apply (C8_one_row_per_record_and_peptide
           ["HLA-A_clust_rep_seq.fasta"; "notes.txt"] (fun _ => false)
           (fun _ => [mkSeqRecord "A0101" "A0101" "GSHSMRY";
                      mkSeqRecord "A0201" "A0201" "GSHSMRF"])
           "clust" ["AAA"; "CCC"] 1 "_rep" 7 None).
  - left; reflexivity.
  - discriminate.
Defined.

(** C8 as stated fails on files that match the caller's marker but not the
    fixed guard of the loop.  [HLA-B_rep.fa] is listed and contains the marker
    [_rep], yet its record gives no row; with the marker [_D] the listed file
    [DMA_DMB-homo.fasta] gives no row either and the function ends in the
    exception of an empty concatenation. *)
Lemma C8_marker_match_without_rows :
  let read_fasta := fun path : string =>
    if String.eqb path "clust/HLA-A_clust_rep_seq.fasta"
    then [mkSeqRecord "A0101" "A0101" "GSHSMRY"]
    else [mkSeqRecord "B0702" "B0702" "GSHSMRZ"] in
  (In "HLA-B_rep.fa"
      (list_of_dir ["HLA-A_clust_rep_seq.fasta"; "HLA-B_rep.fa"]
                   (fun _ => false) "clust" "_rep" None)
   /\ contains "_rep" "HLA-B_rep.fa" = true
   /\ create_parsefold_input_from_representatives
        ["HLA-A_clust_rep_seq.fasta"; "HLA-B_rep.fa"] (fun _ => false)
        read_fasta "clust" [] 1 "_rep" 0 None
      = Ok [mkInputRow "MRMATPLLM" "GSHSMRY" 1 None "A0101_0"])
  /\ (In "DMA_DMB-homo.fasta"
         (list_of_dir ["DMA_DMB-homo.fasta"] (fun _ => false) "pairs" "_D" None)
      /\ contains "_D" "DMA_DMB-homo.fasta" = true
      /\ create_parsefold_input_from_representatives
           ["DMA_DMB-homo.fasta"] (fun _ => false)
           read_fasta "pairs" [] 2 "_D" 0 None
         = Raise ValueError).
Proof.
  repeat split; try (simpl; auto; fail); vm_compute; reflexivity.
Qed.

(** ** [match_pseudoseq]: the statements after the loop *)

(** Whenever the failure tables are written, the one named [noduplicate] has
    the rows of the other. *)
Lemma persist_failure_tables_equal (st : Acc) (files : list (string * Table))
  (table : Table) :
  persist st = (files, Ok tt) ->
  In ("FAILED_noduplicate.tsv", table) files ->
  In ("FAILED.tsv", table) files.
Proof.
  unfold persist.
  destruct (pd_concat (DF st)) as [DF1|e]; [|intros H; discriminate].
  destruct (pd_concat (FAILED st)) as [FAILED1|e]; [|intros H; discriminate].
  intros H. injection H as <-. simpl.
  intros [H|[H|[H|[H|[]]]]]; try discriminate.
  injection H as <-. auto.
Qed.

(** C10. If the extraction loop ends with no success frame, the concatenation
    of the success frames raises: [match_pseudoseq] ends in that exception
    with no table written, whatever failure frames were gathered. *)
Theorem C10_no_success_rows_aborts :
  forall (w : World) (df : list (Z * ClipRow))
         (input_folder path_to_mmseq_clust_folder model tmp_dir : string)
         (continue_from_index : option Z) (st : Acc),
    extraction_loop w input_folder path_to_mmseq_clust_folder model tmp_dir
                    (rows_from continue_from_index df) = Ok st ->
    DF st = [] ->
    match_pseudoseq w df input_folder path_to_mmseq_clust_folder model tmp_dir
                    continue_from_index
    = ([], Raise ValueError).
Proof.
  intros w df input_folder folder model tmp_dir cfi st Hloop HDF.
  unfold match_pseudoseq. rewrite Hloop.
  unfold persist. rewrite HDF. reflexivity.
Qed.

Lemma C10_no_success_rows_aborts_witness :
  extraction_loop example_world "runs" "clust" "m" "tmp"
                  (rows_from None [(0, row_B); (1, row_B)])
  = Ok {| DF := []; FAILED := [[{| iden := "R9" |}]; [{| iden := "R9" |}]] |}
  /\ match_pseudoseq example_world [(0, row_B); (1, row_B)]
                     "runs" "clust" "m" "tmp" None
     = ([], Raise ValueError).
Proof.
  assert (extraction_loop example_world "runs" "clust" "m" "tmp"
                          (rows_from None [(0, row_B); (1, row_B)])
          = Ok {| DF := [];
                  FAILED := [[{| iden := "R9" |}]; [{| iden := "R9" |}]] |})
    as Hloop by (vm_compute; reflexivity).
  split; [exact Hloop|].
  exact (C10_no_success_rows_aborts example_world [(0, row_B); (1, row_B)]
           "runs" "clust" "m" "tmp" None _ Hloop eq_refl).
Defined.

(** C5 fails: the deduplicated failure frame is computed and dropped, and the
    table written as [FAILED_noduplicate.tsv] is the concatenated one.  Two
    rows that fail under the same representative identifier [R9], next to one
    row that succeeds, leave [R9] twice in that table. *)
Theorem C5_failed_noduplicate_has_duplicates :
  exists files,
    match_pseudoseq example_world [(0, row_A); (1, row_B); (2, row_B)]
                    "runs" "clust" "m" "tmp" None
    = (files, Ok tt)
    /\ In ("FAILED_noduplicate.tsv",
           FailureTable [{| iden := "R9" |}; {| iden := "R9" |}]) files
    /\ ~ NoDup (map iden [{| iden := "R9" |}; {| iden := "R9" |}])
    /\ drop_duplicates String.eqb iden [{| iden := "R9" |}; {| iden := "R9" |}]
       = [{| iden := "R9" |}].
Proof.
  eexists. split; [vm_compute; reflexivity|].
  split; [simpl; auto 10|].
  split; [|reflexivity].
  intros H. inversion H as [|x l Hnotin _]; subst. apply Hnotin. left. reflexivity.
Qed.

(** ** [match_pseudoseq]: the extraction loop *)

Lemma enumerate_from_In {A : Type} (l : list A) :
  forall n k a, In (k, a) (enumerate_from n l) ->
                (n <= k)%nat /\ nth_error l (k - n) = Some a.
Proof.
  induction l as [|x l IH]; intros n k a H; simpl in H; [tauto|].
  destruct H as [H|H].
  - injection H as <- <-. rewrite Nat.sub_diag. split; [lia | reflexivity].
  - apply IH in H. destruct H as [Hle Hnth]. split; [lia|].
    replace (k - n)%nat with (S (k - S n)) by lia. exact Hnth.
Qed.

Lemma enumerate_In {A : Type} (l : list A) (k : nat) (a : A) :
  In (k, a) (enumerate l) -> nth_error l k = Some a.
Proof.
  intros H. apply enumerate_from_In in H. destruct H as [_ H].
  now rewrite Nat.sub_0_r in H.
Qed.

Lemma nth_error_within {A : Type} (l : list A) (k : nat) :
  (k < List.length l)%nat -> exists a, nth_error l k = Some a.
Proof.
  intros H. destruct (nth_error l k) as [a|] eqn:E; [now exists a|].
  apply nth_error_None in E. lia.
Qed.

(** A row always has at least one representative identifier, so the first
    chain of a row always has one. *)
Lemma idens_nonempty (row : ClipRow) : (1 <= List.length (idens_of row))%nat.
Proof. unfold idens_of. apply split_length_pos. Qed.

(** The handler: an exception of the [try] block becomes one failure frame,
    provided the chain has a representative identifier. *)
Lemma process_chain_handles (w : World) (folder tmp_dir : string) (number : Z)
  (row : ClipRow) (arr : NpzFile) (st : Acc) (enum : nat) (f rep : string)
  (e : exn) :
  contains "mice" f = false ->
  try_chain w folder tmp_dir number row arr st enum f = Raise e ->
  nth_error (idens_of row) enum = Some rep ->
  process_chain w folder tmp_dir number row arr st (enum, f)
  = Ok {| DF := DF st; FAILED := FAILED st ++ [[{| iden := rep |}]] |}.
Proof.
  intros Hmice Htry Hrep. unfold process_chain, getitem.
  rewrite Hmice, Htry, Hrep. reflexivity.
Qed.

Lemma process_chain_returns (w : World) (folder tmp_dir : string) (number : Z)
  (row : ClipRow) (arr : NpzFile) (st : Acc) (enum : nat) (f : string) :
  (enum < List.length (idens_of row))%nat ->
  exists st', process_chain w folder tmp_dir number row arr st (enum, f) = Ok st'.
Proof.
  intros Hlt. destruct (nth_error_within _ _ Hlt) as [rep Hrep].
  unfold process_chain, getitem. rewrite Hrep.
  destruct (contains "mice" f); simpl; [now exists st|].
  destruct (try_chain w folder tmp_dir number row arr st enum f) as [st'|e];
    simpl; eauto.
Qed.

Lemma process_row_returns (w : World)
  (input_folder folder model tmp_dir : string) (st : Acc) (num : Z)
  (row : ClipRow) (arr : NpzFile) :
  np_load w (npzpath_of input_folder model row) = Ok arr ->
  (List.length (split ";;" (row_file row)) <= List.length (idens_of row))%nat ->
  exists st', process_row w input_folder folder model tmp_dir st (num, row) = Ok st'.
Proof.
  intros Hload Hlen. unfold process_row. rewrite Hload. cbn [bind].
  destruct (foldM_invariant
              (process_chain w folder tmp_dir num row arr) (fun _ => True)
              (enumerate (split ";;" (row_file row)))) with (s := st)
    as [st' [E _]]; [|exact I|now exists st'].
  intros s [enum f] Hin _.
  apply enumerate_In in Hin.
  assert (enum < List.length (split ";;" (row_file row)))%nat as Hlt
    by (apply nth_error_Some; congruence).
  destruct (process_chain_returns w folder tmp_dir num row arr s enum f)
    as [s' Hs']; [lia|].
  exists s'. split; [assumption | exact I].
Qed.

(** C2, as the code has it.  If the array artifact of every row loads and no
    row has more file names than representative identifiers, the extraction
    loop runs to its end whatever the guarded steps do, and on a chain that
    passes the [mice] guard any exception of the guarded steps is replaced by
    one failure frame carrying the chain's representative identifier, the
    success frames being left as they were. *)
Theorem C2_chain_exceptions_recorded :
  forall (w : World) (input_folder folder model tmp_dir : string)
         (df : list (Z * ClipRow)),
    (forall num row, In (num, row) df ->
       (exists arr, np_load w (npzpath_of input_folder model row) = Ok arr)
       /\ (List.length (split ";;" (row_file row))
           <= List.length (idens_of row))%nat) ->
    (exists st, extraction_loop w input_folder folder model tmp_dir df = Ok st)
    /\ (forall num row arr st enum f e,
          In (num, row) df ->
          In (enum, f) (enumerate (split ";;" (row_file row))) ->
          contains "mice" f = false ->
          try_chain w folder tmp_dir num row arr st enum f = Raise e ->
          exists rep,
            nth_error (idens_of row) enum = Some rep
            /\ process_chain w folder tmp_dir num row arr st (enum, f)
               = Ok {| DF := DF st;
                       FAILED := FAILED st ++ [[{| iden := rep |}]] |}).
Proof.
  intros w input_folder folder model tmp_dir df Hdf. split.
  - unfold extraction_loop.
    destruct (foldM_invariant
                (process_row w input_folder folder model tmp_dir)
                (fun _ => True) df) with (s := {| DF := []; FAILED := [] |})
      as [st [E _]]; [|exact I|now exists st].
    intros s [num row] Hin _.
    destruct (Hdf num row Hin) as [[arr Harr] Hlen].
    destruct (process_row_returns w input_folder folder model tmp_dir s num
                                  row arr Harr Hlen) as [s' Hs'].
    exists s'. split; [assumption | exact I].
  - intros num row arr st enum f e Hin Hchain Hmice Htry.
    destruct (Hdf num row Hin) as [_ Hlen].
    apply enumerate_In in Hchain.
    assert (enum < List.length (split ";;" (row_file row)))%nat as Hlt
      by (apply nth_error_Some; congruence).
    destruct (nth_error_within (idens_of row) enum) as [rep Hrep]; [lia|].
    exists rep. split; [assumption|].
    eapply process_chain_handles; eassumption.
Qed.

Lemma C2_chain_exceptions_recorded_witness :
  extraction_loop example_world "runs" "clust" "m" "tmp"
                  [(0, row_B); (1, row_A)]
  = Ok {| DF := [[mkSuccessRow "M1" "homo" 1 "AD" "R1" "ACD" "0;2;9";
                  mkSuccessRow "M2" "homo" 1 "AE" "R1" "ACE" "0;2;9"]];
          FAILED := [[{| iden := "R9" |}]] |}
  /\ exists st, extraction_loop example_world "runs" "clust" "m" "tmp"
                                [(0, row_B); (1, row_A)] = Ok st.
Proof.
  split; [vm_compute; reflexivity|].
  apply (C2_chain_exceptions_recorded example_world "runs" "clust" "m" "tmp"
           [(0, row_B); (1, row_A)]).
  intros num row [H|[H|[]]]; injection H as <- <-;
    (split; [eexists; vm_compute; reflexivity | vm_compute; lia]).
Defined.

(** C2 as stated fails at the array artifact, which is loaded once per row
    before the guarded steps: a row whose artifact is missing ends the
    extraction loop, and [match_pseudoseq] with it, although the rows after it
    could be processed; no table is written. *)
Lemma C2_missing_artifact_aborts :
  np_load example_world (npzpath_of "runs" "m" row_missing_artifact)
  = Raise OSError
  /\ extraction_loop example_world "runs" "clust" "m" "tmp"
                     [(0, row_missing_artifact); (1, row_A); (2, row_B)]
     = Raise OSError
  /\ match_pseudoseq example_world
                     [(0, row_missing_artifact); (1, row_A); (2, row_B)]
                     "runs" "clust" "m" "tmp" None
     = ([], Raise OSError)
  /\ exists files,
       match_pseudoseq example_world [(1, row_A); (2, row_B)]
                       "runs" "clust" "m" "tmp" None
       = (files, Ok tt).
Proof.
  repeat split; try (vm_compute; reflexivity).
  eexists. vm_compute. reflexivity.
Qed.

(** A row that fails the chain-count assertions fails them in the [try] block
    of every chain. *)
Lemma try_chain_count_mismatch (w : World) (folder tmp_dir : string)
  (number : Z) (row : ClipRow) (arr : NpzFile) (st : Acc) (enum : nat)
  (f : string) :
  chain_count_ok row = false ->
  try_chain w folder tmp_dir number row arr st enum f = Raise AssertionError.
Proof.
  unfold chain_count_ok, try_chain, prepare_chain. intros H.
  destruct (row_mhc_type row =? 2);
    destruct (Nat.eqb (List.length (idens_of row)) _); simpl in H |- *;
    try reflexivity;
    destruct (Nat.eqb (List.length (split ";;" (row_file row))) _);
    simpl in H |- *; try reflexivity; discriminate.
Qed.

Lemma mismatch_chains_fail (w : World) (folder tmp_dir : string) (number : Z)
  (row : ClipRow) (arr : NpzFile) (chains : list (nat * string)) :
  chain_count_ok row = false ->
  (forall enum f, In (enum, f) chains ->
                  (enum < List.length (idens_of row))%nat) ->
  forall st,
    foldM (process_chain w folder tmp_dir number row arr) st chains
    = Ok {| DF := DF st;
            FAILED := FAILED st
                      ++ failure_frames row
                           (filter (fun chain => negb (contains "mice" (snd chain)))
                                   chains) |}.
Proof.
  intros Hbad. induction chains as [|[enum f] chains IH]; intros Hin st.
  - simpl. rewrite app_nil_r. now destruct st.
  - cbn [foldM filter snd].
    destruct (contains "mice" f) eqn:Hmice.
    + unfold process_chain at 1. rewrite Hmice. cbn [negb].
      apply IH. intros enum' f' H'. apply (Hin enum' f'). now right.
    + destruct (nth_error_within (idens_of row) enum) as [rep Hrep];
        [apply (Hin enum f); now left|].
      rewrite (process_chain_handles w folder tmp_dir number row arr st enum f
                 rep AssertionError Hmice
                 (try_chain_count_mismatch w folder tmp_dir number row arr st
                                           enum f Hbad) Hrep).
      rewrite IH by (intros enum' f' H'; apply (Hin enum' f'); now right).
      cbn [negb failure_frames map fst DF FAILED].
      rewrite <- app_assoc. cbn [app].
      now rewrite (nth_error_nth _ _ _ Hrep).
Qed.

(** C4, as the code has it.  For a row whose array artifact loads and whose
    counts of file names and representative identifiers fail the assertions
    of its declared class (two of each for class 2, one of each otherwise):
    every chain that passes the [mice] guard and has a representative
    identifier (its index is below their number) adds one failure frame
    carrying that identifier and no success frame, and the loop goes on to
    the next chain of the row; if moreover the row has no more file names
    than representative identifiers, the row as a whole adds exactly these
    failure frames, one per chain that passes the guard, and the loop goes on
    with the rows that follow. *)
Theorem C4_chain_count_mismatch_recorded :
  forall (w : World) (input_folder folder model tmp_dir : string)
         (num : Z) (row : ClipRow) (arr : NpzFile),
    np_load w (npzpath_of input_folder model row) = Ok arr ->
    chain_count_ok row = false ->
    (forall (st : Acc) (enum : nat) (f rep : string)
            (chains : list (nat * string)),
       contains "mice" f = false ->
       nth_error (idens_of row) enum = Some rep ->
       let st' := {| DF := DF st;
                     FAILED := FAILED st ++ [[{| iden := rep |}]] |} in
       process_chain w folder tmp_dir num row arr st (enum, f) = Ok st'
       /\ foldM (process_chain w folder tmp_dir num row arr) st
                ((enum, f) :: chains)
          = foldM (process_chain w folder tmp_dir num row arr) st' chains)
    /\ ((List.length (split ";;" (row_file row))
         <= List.length (idens_of row))%nat ->
        forall (st : Acc) (rest : list (Z * ClipRow)),
          let st' := {| DF := DF st;
                        FAILED := FAILED st
                                  ++ failure_frames row (guarded_chains row) |} in
          process_row w input_folder folder model tmp_dir st (num, row) = Ok st'
          /\ foldM (process_row w input_folder folder model tmp_dir) st
                   ((num, row) :: rest)
             = foldM (process_row w input_folder folder model tmp_dir) st' rest).
Proof.
  intros w input_folder folder model tmp_dir num row arr Hload Hbad.
  split.
  - intros st enum f rep chains Hmice Hrep st'.
    assert (process_chain w folder tmp_dir num row arr st (enum, f) = Ok st')
      as Hchain.
    { apply (process_chain_handles w folder tmp_dir num row arr st enum f rep
               AssertionError Hmice); [|assumption].
      now apply try_chain_count_mismatch. }
    split; [exact Hchain|]. cbn [foldM]. now rewrite Hchain.
  - intros Hlen st rest st'.
    assert (process_row w input_folder folder model tmp_dir st (num, row) = Ok st')
      as Hrow.
    { unfold process_row. rewrite Hload. cbn [bind].
      apply mismatch_chains_fail; [assumption|].
      intros enum f Hin. apply enumerate_In in Hin.
      assert (enum < List.length (split ";;" (row_file row)))%nat
        by (apply nth_error_Some; congruence).
      lia. }
    split; [exact Hrow|].
    cbn [foldM]. now rewrite Hrow.
Qed.

Lemma C4_chain_count_mismatch_recorded_witness :
  let row := mkClipRow 3 "A-homo_clust_all_seqs.fasta;;B-mice_clust_all_seqs.fasta"
                       "r1" 1 "R1;;R2_0" in
  np_load example_world (npzpath_of "runs" "m" row)
  = Ok [("arr_0", Ok [[0; 2]; [1; 0]; [0; 2]; [5; 9]])]
  /\ chain_count_ok row = false
  /\ process_chain example_world "clust" "tmp" 5 row
                   [("arr_0", Ok [[0; 2]; [1; 0]; [0; 2]; [5; 9]])]
                   {| DF := []; FAILED := [] |}
                   (0%nat, "A-homo_clust_all_seqs.fasta")
     = Ok {| DF := []; FAILED := [[{| iden := "R1" |}]] |}
  /\ process_row example_world "runs" "clust" "m" "tmp"
                 {| DF := []; FAILED := [] |} (5, row)
     = Ok {| DF := []; FAILED := [[{| iden := "R1" |}]] |}.
Proof.
  intros row.
  split; [reflexivity|]. split; [reflexivity|].
  destruct (C4_chain_count_mismatch_recorded example_world "runs" "clust" "m" "tmp"
              5 row [("arr_0", Ok [[0; 2]; [1; 0]; [0; 2]; [5; 9]])]
              eq_refl eq_refl) as [Hchain Hrow].
  split.
  - apply (Hchain {| DF := []; FAILED := [] |} 0%nat
                  "A-homo_clust_all_seqs.fasta" "R1" []); reflexivity.
  - apply (Hrow ltac:(vm_compute; lia) {| DF := []; FAILED := [] |} []).
Defined.

(** C4 as stated fails on chains that the [mice] guard skips before the
    assertions are reached, and on rows whose array artifact does not load.
    A class-1 row with two file names, both marked [mice], leaves no failure
    frame; the same mismatch in a row whose artifact is missing ends the
    loop. *)
Lemma C4_mismatch_without_failure_record :
  let skipped := mkClipRow 3 "A-mice_clust_all_seqs.fasta;;B-mice_clust_all_seqs.fasta"
                           "r1" 1 "R1;;R2_0" in
  let unloaded := mkClipRow 4 "A-homo_clust_all_seqs.fasta;;B-homo_clust_all_seqs.fasta"
                            "r2" 1 "R1;;R2_0" in
  (List.length (split ";;" (row_file skipped)) = 2%nat
   /\ row_mhc_type skipped = 1
   /\ extraction_loop example_world "runs" "clust" "m" "tmp" [(0, skipped)]
      = Ok {| DF := []; FAILED := [] |})
  /\ (List.length (split ";;" (row_file unloaded)) = 2%nat
      /\ row_mhc_type unloaded = 1
      /\ extraction_loop example_world "runs" "clust" "m" "tmp"
                         [(0, unloaded); (1, row_A)]
         = Raise OSError).
Proof.
  repeat split; vm_compute; reflexivity.
Qed.

(** The handler itself raises when the chain has no representative
    identifier: with two file names and one identifier the second chain fails
    its assertion, the handler's [iden[enum]] is out of range, and the loop
    ends in that exception. *)
Lemma handler_index_out_of_range :
  let row := mkClipRow 3 "A-homo_clust_all_seqs.fasta;;B-homo_clust_all_seqs.fasta"
                       "r1" 1 "R1_0" in
  idens_of row = ["R1"]
  /\ extraction_loop example_world "runs" "clust" "m" "tmp" [(0, row); (1, row_A)]
     = Raise IndexError.
Proof.
  split; vm_compute; reflexivity.
Qed.

(** The loop over the aligned records gathers, in order, the success rows of
    the records that have one. *)
Lemma extract_records_spec (mhc_type : Z) (f : string) (idens : list string)
  (enum : nat) (mhc_position : list Z) (sp rep : string)
  (aligned : list SeqRecord) :
  Forall (fun p => 0 <= p) mhc_position ->
  species_of f = Ok sp ->
  nth_error idens enum = Some rep ->
  forall rows,
    foldM (extract_record mhc_type f idens enum mhc_position) rows aligned
    = Ok (rows ++ flat_map (success_row_of mhc_type sp rep mhc_position) aligned).
Proof.
  intros Hpos Hsp Hrep.
  induction aligned as [|record l IH]; intros rows.
  - simpl. now rewrite app_nil_r.
  - cbn [foldM flat_map].
    assert (extract_record mhc_type f idens enum mhc_position rows record
            = Ok (rows ++ success_row_of mhc_type sp rep mhc_position record))
      as ->.
    { unfold extract_record, success_row_of, getitem.
      destruct (String.eqb (rec_seq record) EmptyString); cbn [negb];
        [now rewrite app_nil_r|].
      destruct (filtered_seq_spec (rec_seq record) mhc_position Hpos)
        as [pseudo [-> _]].
      cbn [bind].
      destruct (String.eqb pseudo EmptyString); cbn [negb]; [now rewrite app_nil_r|].
      rewrite Hsp, Hrep. reflexivity. }
    rewrite IH. now rewrite <- app_assoc.
Qed.

(** C6, as the code has it.  For a chain that passes the [mice] guard and
    whose preparatory steps succeed with non-negative contact positions, a
    parsable species and a representative identifier: each aligned record with
    a non-empty sequence and a non-empty pseudo-sequence gives one success row
    (identifier, species, declared class, pseudo-sequence, representative
    identifier, aligned sequence, positions joined by semicolons), and these
    rows, in record order, are appended as one frame; only when no record of
    the chain gives a row is one failure frame with the representative
    identifier appended instead.  A record with an empty pseudo-sequence gives
    no row of its own. *)
Theorem C6_chain_rows :
  forall (w : World) (folder tmp_dir : string) (number : Z) (row : ClipRow)
         (arr : NpzFile) (st : Acc) (enum : nat) (f : string)
         (aligned : list SeqRecord) (mhc_position : list Z) (sp rep : string),
    contains "mice" f = false ->
    prepare_chain w folder tmp_dir number row arr enum f
      = Ok (aligned, mhc_position) ->
    Forall (fun p => 0 <= p) mhc_position ->
    species_of f = Ok sp ->
    nth_error (idens_of row) enum = Some rep ->
    let rows :=
      flat_map (success_row_of (row_mhc_type row) sp rep mhc_position) aligned in
    process_chain w folder tmp_dir number row arr st (enum, f)
    = Ok (match rows with
          | [] => {| DF := DF st;
                     FAILED := FAILED st ++ [[{| iden := rep |}]] |}
          | _ :: _ => {| DF := DF st ++ [rows]; FAILED := FAILED st |}
          end)
    /\ (forall record pseudo,
          In record aligned ->
          rec_seq record <> EmptyString ->
          filtered_seq (rec_seq record) mhc_position = Ok pseudo ->
          pseudo <> EmptyString ->
          In {| mhc_id := rec_id record;
                species := sp;
                mhc_types := row_mhc_type row;
                pseudo_sequence := pseudo;
                representative_id := rep;
                sequence := rec_seq record;
                repres_pseudo_positions := join ";" (map str mhc_position) |}
             rows).
Proof.
  intros w folder tmp_dir number row arr st enum f aligned mhc_position sp rep
         Hmice Hprep Hpos Hsp Hrep rows.
  split.
  - unfold process_chain, try_chain, collect_chain.
    rewrite Hmice, Hprep. cbn [negb bind fst snd].
    rewrite (extract_records_spec _ _ _ _ _ sp rep aligned Hpos Hsp Hrep).
    cbn [app bind]. fold rows.
    destruct rows as [|r rows']; cbn [List.length Nat.eqb negb].
    + unfold getitem. rewrite Hrep. reflexivity.
    + reflexivity.
  - intros record pseudo Hin Hseq Hfs Hpseudo.
    unfold rows. apply in_flat_map. exists record. split; [assumption|].
    unfold success_row_of.
    destruct (String.eqb_spec (rec_seq record) EmptyString); [contradiction|].
    rewrite Hfs.
    destruct (String.eqb_spec pseudo EmptyString); [contradiction|].
    left. reflexivity.
Qed.

Lemma C6_chain_rows_witness :
  prepare_chain example_world "clust" "tmp" 0 row_A
                [("arr_0", Ok [[0; 2]; [1; 0]; [0; 2]; [5; 9]])] 0
                "A-homo_clust_all_seqs.fasta"
  = Ok ([mkSeqRecord "M1" "M1" "ACD"; mkSeqRecord "M2" "M2" "ACE"], [0; 2; 9])
  /\ process_chain example_world "clust" "tmp" 0 row_A
                   [("arr_0", Ok [[0; 2]; [1; 0]; [0; 2]; [5; 9]])]
                   {| DF := []; FAILED := [] |}
                   (0%nat, "A-homo_clust_all_seqs.fasta")
     = Ok {| DF := [[mkSuccessRow "M1" "homo" 1 "AD" "R1" "ACD" "0;2;9";
                     mkSuccessRow "M2" "homo" 1 "AE" "R1" "ACE" "0;2;9"]];
             FAILED := [] |}.
Proof.
  split; [vm_compute; reflexivity|].
  apply (C6_chain_rows example_world "clust" "tmp" 0 row_A
           [("arr_0", Ok [[0; 2]; [1; 0]; [0; 2]; [5; 9]])]
           {| DF := []; FAILED := [] |} 0%nat "A-homo_clust_all_seqs.fasta"
           [mkSeqRecord "M1" "M1" "ACD"; mkSeqRecord "M2" "M2" "ACE"] [0; 2; 9]
           "homo" "R1").
  - reflexivity.
  - vm_compute; reflexivity.
  - repeat constructor; lia.
  - reflexivity.
  - reflexivity.
Defined.

(** C6 as stated fails for records whose pseudo-sequence is empty: the
    failure frame is decided once per chain, after the loop over its records.
    With the stored position 2, the record [ACD] gives the row with
    pseudo-sequence [D] and the record [AC] gives nothing, no failure frame
    included; with the stored position 7, the two records [ACD] and [ACE]
    both have an empty pseudo-sequence and the chain gets one failure frame,
    not one per record. *)
Lemma C6_empty_pseudo_sequence_not_recorded :
  (filtered_seq "AC" (np_unique [2]) = Ok EmptyString
   /\ extraction_loop
        (world_with [[0; 2]] [mkSeqRecord "M1" "M1" "ACD"; mkSeqRecord "M2" "M2" "AC"])
        "runs" "clust" "m" "tmp" [(0, row_A)]
      = Ok {| DF := [[mkSuccessRow "M1" "homo" 1 "D" "R1" "ACD" "2"]];
              FAILED := [] |})
  /\ (filtered_seq "ACD" (np_unique [7]) = Ok EmptyString
      /\ filtered_seq "ACE" (np_unique [7]) = Ok EmptyString
      /\ extraction_loop
           (world_with [[0; 7]] [mkSeqRecord "M1" "M1" "ACD"; mkSeqRecord "M2" "M2" "ACE"])
           "runs" "clust" "m" "tmp" [(0, row_A)]
         = Ok {| DF := []; FAILED := [[{| iden := "R1" |}]] |}).
Proof.
  repeat split; vm_compute; reflexivity.
Qed.

(** * Further properties *)

(** ** [find_longest_sequence] *)

Lemma longest_step_invariant (processed : list SeqRecord)
  (st : string * string * nat) (record : SeqRecord) :
  longest_so_far processed st ->
  longest_so_far (processed ++ [record]) (longest_step st record).
Proof.
  destruct st as [[longest_id longest_seq] max_length].
  unfold longest_so_far, longest_step. intros [Hlen [Hmax Hfirst]].
  destruct (Nat.ltb_spec max_length (String.length (rec_seq record))).
  - split; [reflexivity|]. split.
    + intros r Hr. apply in_app_or in Hr. destruct Hr as [Hr|[<-|[]]].
      * specialize (Hmax r Hr). lia.
      * lia.
    + right. exists processed, record, []. repeat split; try lia.
      intros p Hp. specialize (Hmax p Hp). lia.
  - split; [assumption|]. split.
    + intros r Hr. apply in_app_or in Hr. destruct Hr as [Hr|[<-|[]]].
      * now apply Hmax.
      * assumption.
    + destruct Hfirst as [Hempty | [pre [r [post [E H']]]]]; [now left|].
      right. exists pre, r, (post ++ [record]). split; [|assumption].
      rewrite E, <- app_assoc. reflexivity.
Qed.

Lemma longest_loop_invariant (rest : list SeqRecord) :
  forall processed st,
    longest_so_far processed st ->
    longest_so_far (processed ++ rest) (fold_left longest_step rest st).
Proof.
  induction rest as [|record rest IH]; intros processed st H; simpl.
  - now rewrite app_nil_r.
  - replace (processed ++ record :: rest)
      with ((processed ++ [record]) ++ rest)
      by (rewrite <- app_assoc; reflexivity).
    apply IH. now apply longest_step_invariant.
Qed.

Lemma find_longest_sequence_invariant (fasta_file : list SeqRecord) :
  exists n, longest_so_far fasta_file
              (fst (find_longest_sequence fasta_file),
               snd (find_longest_sequence fasta_file), n).
Proof.
  pose proof (longest_loop_invariant fasta_file [] (EmptyString, EmptyString, O))
    as H.
  unfold find_longest_sequence.
  destruct (fold_left longest_step fasta_file (EmptyString, EmptyString, O))
    as [[i s] n].
  exists n. apply H. simpl. split; [reflexivity|]. split; [tauto|]. now left.
Qed.

(** X1. The sequence returned by [find_longest_sequence] is at least as long
    as every record's, and unless the returned pair is empty it is the
    description and sequence of the first record of that length: every record
    before it is strictly shorter. *)
Theorem find_longest_sequence_first_maximal :
  forall fasta_file : list SeqRecord,
    let longest_id := fst (find_longest_sequence fasta_file) in
    let longest_seq := snd (find_longest_sequence fasta_file) in
    (forall r, In r fasta_file ->
               (String.length (rec_seq r) <= String.length longest_seq)%nat)
    /\ ((longest_id = EmptyString /\ longest_seq = EmptyString)
        \/ exists pre r post,
             fasta_file = pre ++ r :: post
             /\ longest_id = rec_description r
             /\ longest_seq = rec_seq r
             /\ forall p, In p pre ->
                          (String.length (rec_seq p)
                           < String.length longest_seq)%nat).
Proof.
  intros fasta_file longest_id longest_seq.
  destruct (find_longest_sequence_invariant fasta_file) as [n [Hn [Hmax Hfirst]]].
  fold longest_id longest_seq in Hn, Hmax, Hfirst.
  split.
  - intros r Hr. specialize (Hmax r Hr). lia.
  - destruct Hfirst as [H | [pre [r [post [E [Hid [Hseq [_ Hpre]]]]]]]];
      [now left|].
    right. exists pre, r, post. auto.
Qed.

(** X2. [find_longest_sequence] returns the empty pair exactly when no record
    has a residue, the empty collection included; no exception is raised. *)
Theorem find_longest_sequence_empty_iff :
  forall fasta_file : list SeqRecord,
    find_longest_sequence fasta_file = (EmptyString, EmptyString)
    <-> forall r, In r fasta_file -> rec_seq r = EmptyString.
Proof.
  intros fasta_file.
  destruct (find_longest_sequence_invariant fasta_file) as [n [Hn [Hmax Hfirst]]].
  destruct (find_longest_sequence fasta_file) as [i s]. simpl in *.
  split.
  - intros H r Hr. injection H as -> ->. specialize (Hmax r Hr).
    subst n. simpl in Hmax.
    destruct (rec_seq r); [reflexivity | simpl in Hmax; lia].
  - intros Hall.
    destruct Hfirst as [[-> ->] | [pre [r [post [E [_ [Hseq [Hpos _]]]]]]]];
      [reflexivity|].
    exfalso. assert (In r fasta_file) as Hr
      by (rewrite E; apply in_or_app; right; left; reflexivity).
    rewrite Hseq, (Hall r Hr) in Hpos. simpl in Hpos. lia.
Qed.

(** ** [save_filtered_fasta_by_header] *)

Lemma prefix_append (sub a b : string) :
  String.prefix sub a = true -> String.prefix sub (a ++ b) = true.
Proof.
  revert a. induction sub as [|x sub IH]; intros [|y a] H; simpl in *;
    try discriminate; try reflexivity; [destruct b; reflexivity|].
  destruct (ascii_dec x y); [now apply IH | discriminate].
Qed.

Lemma contains_append_r (sub a b : string) :
  contains sub b = true -> contains sub (a ++ b) = true.
Proof.
  intros H. induction a as [|y a IH]; [exact H|].
  cbn [append contains]. rewrite IH. apply orb_true_r.
Qed.

Lemma contains_append_l (sub a b : string) :
  contains sub a = true -> contains sub (a ++ b) = true.
Proof.
  induction a as [|y a IH]; cbn [contains append].
  - intros H. apply String.eqb_eq in H. subst sub.
    destruct b; reflexivity.
  - rewrite !orb_true_iff. intros [H|H].
    + left. apply (prefix_append sub (String y a) b H).
    + right. now apply IH.
Qed.

(** X4. [save_filtered_fasta_by_header] matches the search string, with its
    case, against the identifier and the description joined by a space: a
    record is written as soon as its identifier or its description contains
    the string. *)
Theorem save_filtered_fasta_by_header_keeps_matches :
  forall (input_fasta : list SeqRecord) (search_string : string)
         (record : SeqRecord),
    In record input_fasta ->
    (contains search_string (rec_id record) = true
     \/ contains search_string (rec_description record) = true) ->
    In record (save_filtered_fasta_by_header input_fasta search_string).
Proof.
  intros input_fasta search_string record Hin Hmatch.
  unfold save_filtered_fasta_by_header. apply filter_In. split; [assumption|].
  destruct Hmatch as [H|H].
  - now apply contains_append_l.
  - apply contains_append_r. now apply (contains_append_r _ " ").
Qed.

Lemma save_filtered_fasta_by_header_keeps_matches_witness :
  In (mkSeqRecord "DRB3x" "allele" "ACD")
     [mkSeqRecord "DRB3x" "allele" "ACD"; mkSeqRecord "y" "drb3 allele" "AC"]
  /\ In (mkSeqRecord "DRB3x" "allele" "ACD")
        (save_filtered_fasta_by_header
           [mkSeqRecord "DRB3x" "allele" "ACD"; mkSeqRecord "y" "drb3 allele" "AC"]
           "DRB3").
Proof.
  split; [simpl; auto|].
  apply (save_filtered_fasta_by_header_keeps_matches
           [mkSeqRecord "DRB3x" "allele" "ACD"; mkSeqRecord "y" "drb3 allele" "AC"]
           "DRB3" (mkSeqRecord "DRB3x" "allele" "ACD")).
  - simpl; auto.
  - left. reflexivity.
Defined.

(** ** [filter_mafft_alignment], further *)

Lemma remove_char_twice (c : ascii) (s : string) :
  remove_char c (remove_char c s) = remove_char c s.
Proof.
  induction s as [|a s IH]; simpl; [reflexivity|].
  destruct (Ascii.eqb a c) eqn:E; simpl; [|rewrite E, IH]; auto.
Qed.

Lemma remove_char_swap (c d : ascii) (s : string) :
  remove_char c (remove_char d s) = remove_char d (remove_char c s).
Proof.
  induction s as [|a s IH]; simpl; [reflexivity|].
  destruct (Ascii.eqb a d) eqn:Ed; destruct (Ascii.eqb a c) eqn:Ec; simpl;
    rewrite ?Ed, ?Ec, ?IH; reflexivity.
Qed.

Lemma remove_char_length (c : ascii) (s : string) :
  (String.length (remove_char c s) <= String.length s)%nat.
Proof.
  induction s as [|a s IH]; simpl; [lia|].
  destruct (Ascii.eqb a c); simpl; lia.
Qed.

Lemma aligned_length_remove_gap (s : string) :
  aligned_length s = String.length (remove_char "-" s).
Proof.
  induction s as [|a s IH]; simpl; [reflexivity|].
  destruct (Ascii.eqb a "-"); simpl; now rewrite IH.
Qed.

(** X6. Stripping is idempotent, and the count that enters the coverage is
    taken before it: it counts every character but the gap, the placeholder
    included, so a written sequence is never longer than the count that
    retained it. *)
Theorem strip_gaps_idempotent_and_bounded :
  forall s : string,
    strip_gaps (strip_gaps s) = strip_gaps s
    /\ (String.length (strip_gaps s) <= aligned_length s)%nat
    /\ (aligned_length s <= String.length s)%nat
    /\ aligned_length s = String.length (remove_char "-" s).
Proof.
  intros s. unfold strip_gaps. split; [|split; [|split]].
  - rewrite (remove_char_swap "-" "X" (remove_char "-" s)).
    now rewrite remove_char_twice, remove_char_twice.
  - rewrite aligned_length_remove_gap. apply remove_char_length.
  - rewrite aligned_length_remove_gap. apply remove_char_length.
  - apply aligned_length_remove_gap.
Qed.

Lemma filter_record_grows (ref_seq_id : string) (ref_seq_length : nat)
  (coverage_threshold : float) (acc out : list SeqRecord) (record : SeqRecord) :
  filter_record ref_seq_id ref_seq_length coverage_threshold acc record = Ok out ->
  (List.length out <= S (List.length acc))%nat
  /\ (forall r, In r acc -> In r out)
  /\ (rec_id record = ref_seq_id -> In record out).
Proof.
  unfold filter_record.
  destruct (String.eqb_spec (rec_id record) ref_seq_id) as [E|E].
  - intros H. injection H as <-. rewrite length_app. simpl.
    split; [lia|]. split; intros; apply in_or_app; [left | right; left]; auto.
  - destruct (compute_coverage ref_seq_length (rec_seq record)) as [c|e];
      simpl; [|discriminate].
    destruct (PrimFloat.leb coverage_threshold c); intros H; injection H as <-.
    + rewrite length_app. simpl. split; [lia|].
      split; [intros; apply in_or_app; left; assumption | contradiction].
    + split; [lia|]. split; [auto | contradiction].
Qed.

Lemma filter_loop_grows (ref_seq_id : string) (ref_seq_length : nat)
  (coverage_threshold : float) (alignment : list SeqRecord) :
  forall acc out,
    foldM (filter_record ref_seq_id ref_seq_length coverage_threshold)
          acc alignment = Ok out ->
    (List.length out <= List.length acc + List.length alignment)%nat
    /\ (forall r, In r acc -> In r out)
    /\ (forall r, In r alignment -> rec_id r = ref_seq_id -> In r out).
Proof.
  induction alignment as [|record l IH]; intros acc out H; simpl in H.
  - injection H as <-. split; [lia|]. split; [auto | intros r []].
  - destruct (filter_record ref_seq_id ref_seq_length coverage_threshold acc record)
      as [acc'|e] eqn:E; [|discriminate].
    apply filter_record_grows in E. destruct E as [E1 [E2 E3]].
    apply IH in H. destruct H as [H1 [H2 H3]].
    split; [simpl; lia|]. split; [auto|].
    intros r [<-|Hr] Hid; auto.
Qed.

(** X7. Whenever [filter_mafft_alignment] returns, its first count is the
    size of the alignment, its second the number of records written, the
    second is at most the first, and every record of the alignment that
    carries the reference identifier is among the written ones, unchanged. *)
Theorem filter_mafft_alignment_counts :
  forall (alignment : list SeqRecord) (ref : SeqRecord) (rest : list SeqRecord)
         (coverage_threshold : float) (filtered : list SeqRecord)
         (num_records_init num_records_final : nat),
    filter_mafft_alignment alignment (ref :: rest) coverage_threshold
      = Ok (filtered, (num_records_init, num_records_final)) ->
    num_records_init = List.length alignment
    /\ num_records_final = List.length filtered
    /\ (num_records_final <= num_records_init)%nat
    /\ forall r, In r alignment -> rec_id r = rec_id ref -> In r filtered.
Proof.
  intros alignment ref rest thr filtered ni nf H.
  unfold filter_mafft_alignment in H.
  destruct (foldM (filter_record (rec_id ref) (String.length (rec_seq ref)) thr)
                  [] alignment) as [out|e] eqn:E; simpl in H; [|discriminate].
  inversion H; subst. clear H.
  apply filter_loop_grows in E. destruct E as [E1 [_ E3]].
  simpl in E1. repeat split; auto.
Qed.

Lemma filter_mafft_alignment_counts_witness :
  filter_mafft_alignment
    [mkSeqRecord "ref" "ref" "AAAACCCC"; mkSeqRecord "q1" "q1" "AAAA----";
     mkSeqRecord "q2" "q2" "A-------"]
    [mkSeqRecord "ref" "ref" "AAAACCCC"] 50%float
  = Ok ([mkSeqRecord "ref" "ref" "AAAACCCC"; mkSeqRecord "q1" "q1" "AAAA"],
        (3%nat, 2%nat))
  /\ (2 <= 3)%nat.
Proof.
  assert (filter_mafft_alignment
            [mkSeqRecord "ref" "ref" "AAAACCCC"; mkSeqRecord "q1" "q1" "AAAA----";
             mkSeqRecord "q2" "q2" "A-------"]
            [mkSeqRecord "ref" "ref" "AAAACCCC"] 50%float
          = Ok ([mkSeqRecord "ref" "ref" "AAAACCCC"; mkSeqRecord "q1" "q1" "AAAA"],
                (3%nat, 2%nat))) as H by (vm_compute; reflexivity).
  split; [exact H|].
  exact (proj1 (proj2 (proj2 (filter_mafft_alignment_counts _ _ _ _ _ _ _ H)))).
Defined.

Lemma filter_record_zero_reference (ref_seq_id : string)
  (coverage_threshold : float) (acc : list SeqRecord) (record : SeqRecord) :
  filter_record ref_seq_id 0 coverage_threshold acc record
  = if String.eqb (rec_id record) ref_seq_id
    then Ok (acc ++ [record]) else Raise ZeroDivisionError.
Proof.
  unfold filter_record. destruct (String.eqb (rec_id record) ref_seq_id);
    reflexivity.
Qed.

(** X8. With a reference sequence of length zero the coverage is a division
    by zero: [filter_mafft_alignment] raises as soon as the alignment holds a
    record with another identifier, and otherwise returns the alignment as it
    is. *)
Theorem filter_mafft_alignment_empty_reference :
  forall (alignment : list SeqRecord) (ref : SeqRecord) (rest : list SeqRecord)
         (coverage_threshold : float),
    rec_seq ref = EmptyString ->
    ((forall r, In r alignment -> rec_id r = rec_id ref) ->
     filter_mafft_alignment alignment (ref :: rest) coverage_threshold
     = Ok (alignment, (List.length alignment, List.length alignment)))
    /\ ((exists r, In r alignment /\ rec_id r <> rec_id ref) ->
        filter_mafft_alignment alignment (ref :: rest) coverage_threshold
        = Raise ZeroDivisionError).
Proof.
  intros alignment ref rest thr Hempty.
  unfold filter_mafft_alignment. rewrite Hempty. cbn [String.length]. split.
  - intros Hall.
    assert (forall acc,
              foldM (filter_record (rec_id ref) 0 thr) acc alignment
              = Ok (acc ++ alignment)) as H.
    { induction alignment as [|r l IH]; intros acc; simpl.
      - now rewrite app_nil_r.
      - rewrite filter_record_zero_reference.
        rewrite (proj2 (String.eqb_eq _ _) (Hall r (or_introl eq_refl))).
        rewrite IH by (intros r' Hr'; apply Hall; now right).
        now rewrite <- app_assoc. }
    rewrite H. reflexivity.
  - intros [r [Hin Hid]].
    destruct (foldM_raises (filter_record (rec_id ref) 0 thr)
                (fun e => e = ZeroDivisionError) alignment) with (s := @nil SeqRecord)
      as [e [E ->]].
    + intros s a e. rewrite filter_record_zero_reference.
      destruct (String.eqb (rec_id a) (rec_id ref)); congruence.
    + exists r. split; [assumption|]. intros s. exists ZeroDivisionError.
      rewrite filter_record_zero_reference.
      destruct (String.eqb_spec (rec_id r) (rec_id ref)); [contradiction|].
      reflexivity.
    + rewrite E. reflexivity.
Qed.

Lemma filter_mafft_alignment_empty_reference_witness :
  rec_seq (mkSeqRecord "ref" "ref" EmptyString) = EmptyString
  /\ filter_mafft_alignment
       [mkSeqRecord "ref" "ref" "----"; mkSeqRecord "q" "q" "AC--"]
       [mkSeqRecord "ref" "ref" EmptyString] 50%float
     = Raise ZeroDivisionError.
Proof.
  split; [reflexivity|].
  apply (filter_mafft_alignment_empty_reference
           [mkSeqRecord "ref" "ref" "----"; mkSeqRecord "q" "q" "AC--"]
           (mkSeqRecord "ref" "ref" EmptyString) [] 50%float eq_refl).
  exists (mkSeqRecord "q" "q" "AC--"). split; [simpl; auto | discriminate].
Defined.

(** X9. Whenever [filter_mafft_alignment] returns with a reference of
    non-zero length, every written record whose identifier is not the
    reference's has neither a gap nor a placeholder character left in its
    sequence. *)
Theorem written_queries_have_no_gaps :
  forall (alignment : list SeqRecord) (ref : SeqRecord) (rest : list SeqRecord)
         (coverage_threshold : float) (filtered : list SeqRecord)
         (counts : nat * nat) (record : SeqRecord),
    (0 < String.length (rec_seq ref))%nat ->
    filter_mafft_alignment alignment (ref :: rest) coverage_threshold
      = Ok (filtered, counts) ->
    In record filtered ->
    rec_id record <> rec_id ref ->
    ~ In "-"%char (chars (rec_seq record))
    /\ ~ In "X"%char (chars (rec_seq record)).
Proof.
  intros alignment ref rest thr filtered counts record Hlen Hrun Hin Hid.
  unfold filter_mafft_alignment in Hrun.
  rewrite filter_loop_spec in Hrun by assumption. simpl in Hrun.
  inversion Hrun; subst filtered.
  apply in_map_iff in Hin. destruct Hin as [r [<- _]].
  unfold written_form in *.
  destruct (String.eqb_spec (rec_id r) (rec_id ref)) as [E|E];
    [contradiction|].
  simpl. apply strip_gaps_clean.
Qed.

Lemma written_queries_have_no_gaps_witness :
  (0 < String.length (rec_seq (mkSeqRecord "ref" "ref" "AAAACCCC")))%nat
  /\ ~ In "-"%char (chars (rec_seq (mkSeqRecord "q1" "q1" "AAAA")))
  /\ ~ In "X"%char (chars (rec_seq (mkSeqRecord "q1" "q1" "AAAA"))).
Proof.
  split; [simpl; lia|].
  apply (written_queries_have_no_gaps
           [mkSeqRecord "ref" "ref" "AAAACCCC"; mkSeqRecord "q1" "q1" "AXAAA---"]
           (mkSeqRecord "ref" "ref" "AAAACCCC") [] 50%float
           [mkSeqRecord "ref" "ref" "AAAACCCC"; mkSeqRecord "q1" "q1" "AAAA"]
           (2%nat, 2%nat) (mkSeqRecord "q1" "q1" "AAAA")).
  - simpl; lia.
  - vm_compute; reflexivity.
  - simpl; auto.
  - discriminate.
Defined.

(** ** [mhc2_cluster_combination_seqs], further *)

(** What holds before a loop and is kept by every round that returns holds
    when the loop returns. *)
Lemma foldM_returns_invariant {S A : Type} (body : S -> A -> result S)
  (I : S -> Prop) (l : list A) :
  (forall s a s', In a l -> I s -> body s a = Ok s' -> I s') ->
  forall s s', I s -> foldM body s l = Ok s' -> I s'.
Proof.
  induction l as [|a l IH]; intros Hbody s s' Hs H; simpl in H.
  - now injection H as <-.
  - destruct (body s a) as [s1|e] eqn:E; [|discriminate].
    apply (IH (fun s0 a0 s0' Hin => Hbody s0 a0 s0' (or_intror Hin)) s1 s');
      [|assumption].
    apply (Hbody s a s1); auto. now left.
Qed.

Lemma foldM_unchanged {S A : Type} (body : S -> A -> result S) (l : list A) :
  (forall s a, In a l -> body s a = Ok s) ->
  forall s, foldM body s l = Ok s.
Proof.
  induction l as [|a l IH]; intros Hbody s; simpl; [reflexivity|].
  rewrite Hbody by now left.
  apply IH. intros s0 a0 Hin. apply Hbody. now right.
Qed.

Lemma cross_product_length (alpha_rec beta_rec : list SeqRecord) :
  List.length (cross_product alpha_rec beta_rec)
  = (List.length alpha_rec * List.length beta_rec)%nat.
Proof.
  unfold cross_product.
  induction alpha_rec as [|a l IH]; [reflexivity|].
  cbn [flat_map]. rewrite length_app, length_map, IH. reflexivity.
Qed.

(** X10. When [mhc2_cluster_combination_seqs] returns, every file it wrote
    belongs to a species and a gene pair of the table for which exactly one
    alpha file and exactly one beta file matched, is named after the pair and
    the species, and holds the full cross product of the two files' records:
    as many records as the product of their numbers. *)
Theorem mhc2_written_files_are_cross_products :
  forall (listing : list string) (read_fasta : string -> list SeqRecord)
         (path_to_cluster_representatives out_dir iden_for_representative : string)
         (written : list PairedFasta),
    let files :=
      map (os_path_join path_to_cluster_representatives)
          (filter (fun i => contains iden_for_representative i
                            && contains "fasta" i && first_char_is_D i) listing) in
    mhc2_cluster_combination_seqs listing read_fasta
      path_to_cluster_representatives out_dir iden_for_representative
    = Ok written ->
    forall path records,
      In (path, records) written ->
      exists sp key value val alpha beta,
        In sp SPECIES /\ In (key, value) (DICT sp) /\ In val (split "-" value)
        /\ matching files key sp = [alpha]
        /\ matching files val sp = [beta]
        /\ path = (rstrip_slash out_dir ++ "/" ++ key ++ "_" ++ val ++ "-"
                   ++ sp ++ ".fasta")%string
        /\ records = cross_product (read_fasta alpha) (read_fasta beta)
        /\ List.length records
           = (List.length (read_fasta alpha) * List.length (read_fasta beta))%nat.
Proof.
  intros listing read_fasta dir out_dir iden_rep written files Hrun.
  unfold mhc2_cluster_combination_seqs in Hrun. fold files in Hrun.
  set (P := fun pf : PairedFasta =>
    exists sp key value val alpha beta,
      In sp SPECIES /\ In (key, value) (DICT sp) /\ In val (split "-" value)
      /\ matching files key sp = [alpha]
      /\ matching files val sp = [beta]
      /\ fst pf = (rstrip_slash out_dir ++ "/" ++ key ++ "_" ++ val ++ "-"
                   ++ sp ++ ".fasta")%string
      /\ snd pf = cross_product (read_fasta alpha) (read_fasta beta)
      /\ List.length (snd pf)
         = (List.length (read_fasta alpha) * List.length (read_fasta beta))%nat).
  assert (Forall P written) as Hall.
  { revert Hrun. apply foldM_returns_invariant; [|constructor].
    intros s sp s' Hsp Hs.
    apply foldM_returns_invariant; [|assumption].
    intros s0 [key value] s0' Hkv Hs0. unfold pair_genes.
    destruct (matching files key sp) as [|alpha [|a' l]] eqn:Ealpha; simpl;
      [intros H; now injection H as <- | | discriminate].
    apply foldM_returns_invariant; [|assumption].
    intros s1 val s1' Hval Hs1. unfold pair_with_beta.
    destruct (matching files val sp) as [|beta [|b' l]] eqn:Ebeta; simpl;
      try discriminate.
    intros H. injection H as <-. apply Forall_app. split; [assumption|].
    constructor; [|constructor].
    exists sp, key, value, val, alpha, beta. simpl.
    repeat split; auto. apply cross_product_length. }
  intros path records Hin. rewrite Forall_forall in Hall.
  destruct (Hall _ Hin) as [sp [key [value [val [alpha [beta H]]]]]].
  exists sp, key, value, val, alpha, beta. exact H.
Qed.

Lemma mhc2_written_files_are_cross_products_witness :
  let read_fasta := fun path : string =>
    if String.eqb path "clust/DMA-homo_clust_rep_seq.fasta"
    then [mkSeqRecord "a1" "a1" "AAA"; mkSeqRecord "a2" "a2" "CCC"]
    else [mkSeqRecord "b1" "b1" "GGG"; mkSeqRecord "b2" "b2" "TTT";
          mkSeqRecord "b3" "b3" "EEE"] in
  mhc2_cluster_combination_seqs
    ["DMA-homo_clust_rep_seq.fasta"; "DMB-homo_clust_rep_seq.fasta"]
    read_fasta "clust" "out/" "_rep"
  = Ok [("out/DMA_DMB-homo.fasta",
         [("a1;;b1", "AAA/GGG"); ("a1;;b2", "AAA/TTT"); ("a1;;b3", "AAA/EEE");
          ("a2;;b1", "CCC/GGG"); ("a2;;b2", "CCC/TTT"); ("a2;;b3", "CCC/EEE")])]
  /\ exists sp key value val,
       In sp SPECIES /\ In (key, value) (DICT sp) /\ In val (split "-" value).
Proof.
  intros read_fasta.
  assert (mhc2_cluster_combination_seqs
            ["DMA-homo_clust_rep_seq.fasta"; "DMB-homo_clust_rep_seq.fasta"]
            read_fasta "clust" "out/" "_rep"
          = Ok [("out/DMA_DMB-homo.fasta",
                 [("a1;;b1", "AAA/GGG"); ("a1;;b2", "AAA/TTT");
                  ("a1;;b3", "AAA/EEE"); ("a2;;b1", "CCC/GGG");
                  ("a2;;b2", "CCC/TTT"); ("a2;;b3", "CCC/EEE")])]) as H
    by (vm_compute; reflexivity).
  split; [exact H|].
  destruct (mhc2_written_files_are_cross_products _ _ _ _ _ _ H
              _ _ (or_introl eq_refl))
    as [sp [key [value [val [alpha [beta [H1 [H2 [H3 _]]]]]]]]].
  exists sp, key, value, val. auto.
Defined.

(** X11. If no file matches the alpha gene of any pair, for any species (an
    empty directory, or one holding beta-chain files only),
    [mhc2_cluster_combination_seqs] checks nothing, writes no paired file and
    returns. *)
Theorem mhc2_without_alpha_files_writes_nothing :
  forall (listing : list string) (read_fasta : string -> list SeqRecord)
         (path_to_cluster_representatives out_dir iden_for_representative : string),
    let files :=
      map (os_path_join path_to_cluster_representatives)
          (filter (fun i => contains iden_for_representative i
                            && contains "fasta" i && first_char_is_D i) listing) in
    (forall sp key value,
       In sp SPECIES -> In (key, value) (DICT sp) ->
       matching files key sp = []) ->
    mhc2_cluster_combination_seqs listing read_fasta
      path_to_cluster_representatives out_dir iden_for_representative
    = Ok [].
Proof.
  intros listing read_fasta dir out_dir iden_rep files Hnone.
  unfold mhc2_cluster_combination_seqs. fold files.
  apply foldM_unchanged. intros s sp Hsp.
  apply foldM_unchanged. intros s0 [key value] Hkv.
  unfold pair_genes. rewrite (Hnone sp key value Hsp Hkv). reflexivity.
Qed.

Lemma mhc2_without_alpha_files_writes_nothing_witness :
  mhc2_cluster_combination_seqs
    ["DRB1-homo_clust_rep_seq.fasta"; "DRB1-homo_b_clust_rep_seq.fasta";
     "A-homo_clust_rep_seq.fasta"]
    (fun _ => [mkSeqRecord "b" "b" "GGG"]) "clust" "out" "_rep"
  = Ok [].
Proof.
  apply (mhc2_without_alpha_files_writes_nothing
           ["DRB1-homo_clust_rep_seq.fasta"; "DRB1-homo_b_clust_rep_seq.fasta";
            "A-homo_clust_rep_seq.fasta"]
           (fun _ => [mkSeqRecord "b" "b" "GGG"]) "clust" "out" "_rep").
  intros sp key value Hsp Hkv.
  simpl in Hsp.
  repeat (destruct Hsp as [<-|Hsp];
          [simpl in Hkv;
           repeat (destruct Hkv as [Hkv|Hkv];
                   [injection Hkv as <- <-; vm_compute; reflexivity|]);
           destruct Hkv|]).
  destruct Hsp.
Defined.

(** ** [create_parsefold_input_from_representatives], further *)

Lemma create_parsefold_rows (listing : list string) (isdir : string -> bool)
  (read_fasta : string -> list SeqRecord) (fasta_dir : string)
  (peptides : list string) (mhc_type : Z) (iden : string) (num : Z)
  (no_iden : option string) :
  mhc_type = 1 \/ mhc_type = 2 ->
  create_parsefold_input_from_representatives
    listing isdir read_fasta fasta_dir peptides mhc_type iden num no_iden
  = pd_concat
      (map (fun row => [row])
           (numbered_rows mhc_type num
              (emissions read_fasta (default_peptides peptides mhc_type)
                 (selected_files listing isdir fasta_dir iden no_iden)))).
Proof.
  intros Htype. unfold create_parsefold_input_from_representatives.
  assert ((mhc_type =? 2) || (mhc_type =? 1) = true) as ->
    by (destruct Htype as [-> | ->]; reflexivity).
  cbn [assert bind]. rewrite emit_files_spec. reflexivity.
Qed.

(** X12. [create_parsefold_input_from_representatives] fails its assertion for
    a declared class other than 1 and 2, whatever the directory holds.  For
    class 1 or 2 the peptide list in use is never empty (an empty list is
    replaced by the default of the class), and when the files that pass the
    tests hold no record, or no file passes them, no row is emitted and the
    function ends in the exception of an empty concatenation. *)
Theorem create_parsefold_input_errors :
  forall (listing : list string) (isdir : string -> bool)
         (read_fasta : string -> list SeqRecord)
         (fasta_dir : string) (peptides : list string) (mhc_type : Z)
         (iden : string) (num : Z) (no_iden : option string),
    (mhc_type <> 1 /\ mhc_type <> 2 ->
     create_parsefold_input_from_representatives
       listing isdir read_fasta fasta_dir peptides mhc_type iden num no_iden
     = Raise AssertionError)
    /\ (mhc_type = 1 \/ mhc_type = 2 ->
        default_peptides peptides mhc_type <> []
        /\ ((forall input_fasta,
               In input_fasta (selected_files listing isdir fasta_dir iden no_iden) ->
               read_fasta input_fasta = []) ->
            create_parsefold_input_from_representatives
              listing isdir read_fasta fasta_dir peptides mhc_type iden num no_iden
            = Raise ValueError)).
Proof.
  intros listing isdir read_fasta fasta_dir peptides mhc_type iden num no_iden.
  split.
  - intros [H1 H2]. unfold create_parsefold_input_from_representatives.
    destruct (Z.eqb_spec mhc_type 2); [contradiction|].
    destruct (Z.eqb_spec mhc_type 1); [contradiction|]. reflexivity.
  - intros Htype. split.
    + unfold default_peptides. destruct peptides; [|discriminate].
      destruct Htype as [-> | ->]; discriminate.
    + intros Hnone. rewrite create_parsefold_rows by assumption.
      assert (emissions read_fasta (default_peptides peptides mhc_type)
                (selected_files listing isdir fasta_dir iden no_iden) = []) as ->.
      { unfold emissions.
        induction (selected_files listing isdir fasta_dir iden no_iden)
          as [|f l IH]; [reflexivity|].
        cbn [flat_map]. rewrite (Hnone f) by now left.
        cbn [flat_map app]. apply IH. intros g Hg. apply Hnone. now right. }
      reflexivity.
Qed.

Lemma numbered_rows_counter_range (mhc_type : Z) (l : list (SeqRecord * string)) :
  forall num i,
    In i (map in_id (numbered_rows mhc_type num l)) ->
    exists record n,
      num <= n < num + Z.of_nat (List.length l)
      /\ i = (rec_id record ++ "_" ++ str n)%string.
Proof.
  induction l as [|[r p] l IH]; intros num i H; [destruct H|].
  cbn [numbered_rows map in_id] in H. destruct H as [<-|H].
  - exists r, num. split; [simpl List.length; lia | reflexivity].
  - destruct (IH _ _ H) as [r' [n [Hn ->]]]. exists r', n.
    split; [simpl List.length; lia | reflexivity].
Qed.

(** X13. Two tables built by [create_parsefold_input_from_representatives],
    the second with the counter set to the first counter plus the number of
    rows of the first table (as the module's own script does with
    [num = len(df1)]), have no identifier in common, and none twice: the
    concatenated table has pairwise distinct identifiers, whatever the
    directories, classes and peptides of the two calls. *)
Theorem create_parsefold_input_counter_composes :
  forall (listing1 listing2 : list string) (isdir1 isdir2 : string -> bool)
         (read1 read2 : string -> list SeqRecord)
         (dir1 dir2 : string) (peptides1 peptides2 : list string)
         (mhc_type1 mhc_type2 : Z) (iden1 iden2 : string) (num : Z)
         (no_iden1 no_iden2 : option string) (df1 df2 : DataFrame InputRow),
    create_parsefold_input_from_representatives
      listing1 isdir1 read1 dir1 peptides1 mhc_type1 iden1 num no_iden1
    = Ok df1 ->
    create_parsefold_input_from_representatives
      listing2 isdir2 read2 dir2 peptides2 mhc_type2 iden2
      (num + Z.of_nat (List.length df1)) no_iden2
    = Ok df2 ->
    NoDup (map in_id (df1 ++ df2)).
Proof.
  intros listing1 listing2 isdir1 isdir2 read1 read2 dir1 dir2
         peptides1 peptides2 t1 t2 iden1 iden2 num no1 no2 df1 df2 H1 H2.
  assert (forall listing isdir read dir peptides t iden n no df,
            create_parsefold_input_from_representatives
              listing isdir read dir peptides t iden n no = Ok df ->
            exists em, df = numbered_rows t n em) as Hshape.
  { intros listing isdir read dir peptides t iden n no df H.
    assert (t = 1 \/ t = 2) as Ht.
    { unfold create_parsefold_input_from_representatives in H.
      destruct (Z.eqb_spec t 2); [now right|].
      destruct (Z.eqb_spec t 1); [now left | discriminate]. }
    rewrite create_parsefold_rows in H by assumption.
    unfold pd_concat in H.
    destruct (map (fun row => [row]) _) as [|d l] eqn:E; [discriminate|].
    rewrite <- E, concat_singletons in H. injection H as <-. eauto. }
  destruct (Hshape _ _ _ _ _ _ _ _ _ _ H1) as [em1 ->].
  destruct (Hshape _ _ _ _ _ _ _ _ _ _ H2) as [em2 ->].
  rewrite map_app. apply NoDup_app.
  - apply numbered_rows_NoDup.
  - apply numbered_rows_NoDup.
  - intros i Hi1 Hi2.
    apply numbered_rows_counter_range in Hi1.
    apply numbered_rows_counter_range in Hi2.
    destruct Hi1 as [r1 [n1 [Hn1 E1]]]. destruct Hi2 as [r2 [n2 [Hn2 E2]]].
    rewrite E1 in E2. apply numbered_id_injective in E2.
    rewrite numbered_rows_length in Hn2. lia.
Qed.

Lemma create_parsefold_input_counter_composes_witness :
  NoDup (map in_id
           ([mkInputRow "MRMATPLLM" "GSH" 1 None "A0101_0";
             mkInputRow "MRMATPLLM" "GSF" 1 None "A0201_1"]
            ++ [mkInputRow "MRMATPLLMQALPM" "GSH" 2 None "A0101_2";
                mkInputRow "MRMATPLLMQALPM" "GSF" 2 None "A0201_3"])).
Proof.
  apply (create_parsefold_input_counter_composes
           ["HLA-A_clust_rep_seq.fasta"] ["HLA-A_clust_rep_seq.fasta"]
           (fun _ => false) (fun _ => false)
           (fun _ => [mkSeqRecord "A0101" "A0101" "GSH";
                      mkSeqRecord "A0201" "A0201" "GSF"])
           (fun _ => [mkSeqRecord "A0101" "A0101" "GSH";
                      mkSeqRecord "A0201" "A0201" "GSF"])
           "clust" "clust" [] [] 1 2 "_rep" "_rep" 0 None None);
    vm_compute; reflexivity.
Defined.

(** ** [match_pseudoseq], further *)

Lemma seq_getitem_Ok_range (s : string) (i : Z) (c : ascii) :
  seq_getitem s i = Ok c ->
  - Z.of_nat (String.length s) <= i < Z.of_nat (String.length s).
Proof.
  unfold seq_getitem.
  destruct (Z.ltb_spec i 0);
    match goal with |- context [(0 <=? ?k) && (?k <? ?n)] =>
      destruct (Z.leb_spec 0 k); destruct (Z.ltb_spec k n) end;
    simpl; try discriminate; intros _; lia.
Qed.

Lemma seq_getitem_raises (s : string) (i : Z) (e : exn) :
  seq_getitem s i = Raise e -> e = IndexError.
Proof.
  unfold seq_getitem.
  destruct ((0 <=? _) && (_ <? _)); [|congruence].
  destruct (String.get _ s); congruence.
Qed.

Lemma seq_getitem_wraps (s : string) (i : Z) :
  - Z.of_nat (String.length s) <= i < 0 ->
  exists c,
    String.get (Z.to_nat (Z.of_nat (String.length s) + i)) s = Some c
    /\ seq_getitem s i = Ok c.
Proof.
  intros Hi. unfold seq_getitem.
  destruct (Z.ltb_spec i 0); [|lia].
  destruct (Z.leb_spec 0 (i + Z.of_nat (String.length s))); [|lia].
  destruct (Z.ltb_spec (i + Z.of_nat (String.length s))
                       (Z.of_nat (String.length s))); [|lia].
  simpl.
  destruct (get_in_range s (Z.to_nat (i + Z.of_nat (String.length s))))
    as [c Hc]; [lia|].
  exists c. rewrite Z.add_comm. now rewrite Hc.
Qed.

(** X14. The pseudo-sequence is built without an exception exactly when no
    contact position lies below minus the sequence's length: a position in
    the negative range down to minus the length is read from the end of the
    sequence, as Python indexes, and counts as one residue; a position further
    below makes the whole expression raise [IndexError]. *)
Theorem filtered_seq_negative_positions :
  forall (s : string) (mhc_position : list Z),
    let n := Z.of_nat (String.length s) in
    (Forall (fun p => - n <= p) mhc_position ->
     exists pseudo,
       filtered_seq s mhc_position = Ok pseudo
       /\ String.length pseudo
          = List.length (within_length (String.length s) mhc_position))
    /\ ((exists p, In p mhc_position /\ p < - n) ->
        filtered_seq s mhc_position = Raise IndexError)
    /\ (forall p, - n <= p < 0 ->
          exists c, String.get (Z.to_nat (n + p)) s = Some c
                    /\ filtered_seq s [p] = Ok (String c EmptyString)).
Proof.
  intros s mhc_position n. split; [|split].
  - induction 1 as [|p l Hp Hl IH]; simpl.
    + exists EmptyString. split; reflexivity.
    + destruct IH as [rest [Erest Hrest]].
      destruct (Z.ltb_spec p (Z.of_nat (String.length s))).
      * assert (exists c, seq_getitem s p = Ok c) as [c Ec].
        { destruct (Z.ltb_spec p 0).
          - destruct (seq_getitem_wraps s p) as [c [_ Hc]]; [fold n; lia|].
            now exists c.
          - destruct (seq_getitem_in_range s p) as [c [_ Hc]]; [lia|].
            now exists c. }
        rewrite Ec, Erest. simpl. exists (String c rest).
        split; [reflexivity|]. simpl. now rewrite Hrest.
      * exists rest. split; assumption.
  - induction mhc_position as [|q l IH]; intros [p [Hin Hp]]; [destruct Hin|].
    simpl.
    destruct (Z.ltb_spec q (Z.of_nat (String.length s))) as [Hq|Hq].
    + destruct (seq_getitem s q) as [c|e] eqn:E; simpl.
      * apply seq_getitem_Ok_range in E.
        destruct Hin as [->|Hin]; [fold n in E; lia|].
        rewrite IH by (exists p; split; assumption). reflexivity.
      * apply seq_getitem_raises in E. now subst e.
    + destruct Hin as [->|Hin]; [fold n in Hq; lia|].
      apply IH. exists p; split; assumption.
  - intros p Hp.
    destruct (seq_getitem_wraps s p) as [c [Hc Ec]]; [fold n; lia|].
    exists c. split; [exact Hc|]. simpl.
    destruct (Z.ltb_spec p (Z.of_nat (String.length s))); [|fold n in H; lia].
    now rewrite Ec.
Qed.

(** The frames a chain can add. *)
Lemma extract_record_rows (mhc_type : Z) (f : string) (idens : list string)
  (enum : nat) (mhc_position : list Z) (rows rows' : list SuccessRow)
  (record : SeqRecord) :
  Forall (fun r => pseudo_sequence r <> EmptyString
                   /\ sequence r <> EmptyString) rows ->
  extract_record mhc_type f idens enum mhc_position rows record = Ok rows' ->
  Forall (fun r => pseudo_sequence r <> EmptyString
                   /\ sequence r <> EmptyString) rows'.
Proof.
  intros Hrows. unfold extract_record.
  destruct (String.eqb_spec (rec_seq record) EmptyString) as [E|E]; cbn [negb];
    [intros H; now injection H as <-|].
  destruct (filtered_seq (rec_seq record) mhc_position) as [filtered|e];
    cbn [bind]; [|discriminate].
  destruct (String.eqb_spec filtered EmptyString) as [E'|E']; cbn [negb];
    [intros H; now injection H as <-|].
  destruct (species_of f) as [sp|e]; cbn [bind]; [|discriminate].
  destruct (getitem idens enum) as [rep|e]; cbn [bind]; [|discriminate].
  intros H. injection H as <-. apply Forall_app. split; [assumption|].
  constructor; [|constructor]. simpl. split; assumption.
Qed.

Lemma process_chain_step (w : World) (folder tmp_dir : string) (number : Z)
  (row : ClipRow) (arr : NpzFile) (st st' : Acc) (enum : nat) (f : string) :
  process_chain w folder tmp_dir number row arr st (enum, f) = Ok st' ->
  (contains "mice" f = true /\ st' = st)
  \/ (contains "mice" f = false
      /\ ((exists rows, well_formed_success rows
                        /\ DF st' = DF st ++ [rows] /\ FAILED st' = FAILED st)
          \/ (exists rep, nth_error (idens_of row) enum = Some rep
                          /\ DF st' = DF st
                          /\ FAILED st' = FAILED st ++ [[{| iden := rep |}]]))).
Proof.
  unfold process_chain.
  destruct (contains "mice" f); cbn [negb];
    [intros H; injection H as <-; now left|].
  intros H. right. split; [reflexivity|].
  assert (forall rep', getitem (idens_of row) enum = Ok rep' ->
                       nth_error (idens_of row) enum = Some rep') as Hget.
  { intros rep'. unfold getitem.
    destruct (nth_error (idens_of row) enum); congruence. }
  destruct (try_chain w folder tmp_dir number row arr st enum f)
    as [st1|e] eqn:Etry.
  - injection H as <-. unfold try_chain in Etry.
    destruct (prepare_chain w folder tmp_dir number row arr enum f)
      as [[aligned mhc_position]|e]; cbn [bind fst snd] in Etry; [|discriminate].
    unfold collect_chain in Etry.
    destruct (foldM _ [] aligned) as [rows|e] eqn:Erows; cbn [bind] in Etry;
      [|discriminate].
    assert (Forall (fun r => pseudo_sequence r <> EmptyString
                             /\ sequence r <> EmptyString) rows) as Hrows.
    { revert Erows. apply foldM_returns_invariant; [|constructor].
      intros s a s' _. apply extract_record_rows. }
    destruct rows as [|r rows]; cbn [List.length Nat.eqb negb] in Etry.
    + destruct (getitem (idens_of row) enum) as [rep|e] eqn:Erep;
        cbn [bind] in Etry; [|discriminate].
      injection Etry as <-. right. exists rep. simpl. auto.
    + injection Etry as <-. left. exists (r :: rows). simpl.
      split; [|auto]. split; [discriminate | assumption].
  - destruct (getitem (idens_of row) enum) as [rep|e'] eqn:Erep;
      cbn [bind] in H; [|discriminate].
    injection H as <-. right. exists rep. simpl. auto.
Qed.

Lemma process_chains_account (w : World) (folder tmp_dir : string) (number : Z)
  (row : ClipRow) (arr : NpzFile) (chains : list (nat * string)) :
  forall st st',
    foldM (process_chain w folder tmp_dir number row arr) st chains = Ok st' ->
    (Forall well_formed_success (DF st) ->
     Forall well_formed_failure (FAILED st) ->
     Forall well_formed_success (DF st')
     /\ Forall well_formed_failure (FAILED st'))
    /\ (List.length (DF st') + List.length (FAILED st')
        = List.length (DF st) + List.length (FAILED st)
          + List.length (filter (fun chain => negb (contains "mice" (snd chain)))
                                chains))%nat.
Proof.
  induction chains as [|[enum f] chains IH]; intros st st' H; cbn [foldM] in H.
  - injection H as <-. split; [auto | simpl; lia].
  - destruct (process_chain w folder tmp_dir number row arr st (enum, f))
      as [st1|e] eqn:E; [|discriminate].
    apply IH in H. destruct H as [Hwf Hcount].
    apply process_chain_step in E. cbn [filter snd].
    destruct E as [[Hmice ->] | [Hmice [[rows [Hrows [E1 E2]]] | [rep [_ [E1 E2]]]]]];
      rewrite Hmice; cbn [negb].
    + split; assumption.
    + split.
      * intros HDF HF. apply Hwf.
        -- rewrite E1. apply Forall_app. split; [assumption|].
           constructor; [assumption | constructor].
        -- now rewrite E2.
      * rewrite Hcount, E1, E2, length_app. simpl. lia.
    + split.
      * intros HDF HF. apply Hwf.
        -- now rewrite E1.
        -- rewrite E2. apply Forall_app. split; [assumption|].
           constructor; [reflexivity | constructor].
      * rewrite Hcount, E1, E2, length_app. simpl. lia.
Qed.

(** X15. Whenever the extraction loop of [match_pseudoseq] runs to its end,
    whatever the files and the aligner gave: every chain that passed the [mice]
    guard has left exactly one frame, a success frame or a failure frame, so
    the two accumulators together hold as many frames as there are such
    chains; every success frame is non-empty and all its rows have a non-empty
    sequence and pseudo-sequence; every failure frame has exactly one row. *)
Theorem extraction_loop_accounts_for_every_chain :
  forall (w : World) (input_folder folder model tmp_dir : string)
         (df : list (Z * ClipRow)) (st : Acc),
    extraction_loop w input_folder folder model tmp_dir df = Ok st ->
    (List.length (DF st) + List.length (FAILED st))%nat = guarded_chain_count df
    /\ Forall well_formed_success (DF st)
    /\ Forall well_formed_failure (FAILED st).
Proof.
  intros w input_folder folder model tmp_dir df st. unfold extraction_loop.
  assert (forall df s s',
            foldM (process_row w input_folder folder model tmp_dir) s df = Ok s' ->
            ((List.length (DF s') + List.length (FAILED s'))%nat
             = (List.length (DF s) + List.length (FAILED s)
                + guarded_chain_count df)%nat)
            /\ (Forall well_formed_success (DF s) ->
                Forall well_formed_failure (FAILED s) ->
                Forall well_formed_success (DF s')
                /\ Forall well_formed_failure (FAILED s'))) as Hloop.
  { clear df st. induction df as [|[num row] df IH]; intros s s' H;
      cbn [foldM] in H.
    - injection H as <-. unfold guarded_chain_count. simpl. split; [lia | auto].
    - destruct (process_row w input_folder folder model tmp_dir s (num, row))
        as [s1|e] eqn:E; [|discriminate].
      apply IH in H. destruct H as [Hcount Hwf].
      unfold process_row in E.
      destruct (np_load w (npzpath_of input_folder model row)) as [arr|e];
        cbn [bind] in E; [|discriminate].
      apply process_chains_account in E. destruct E as [Ewf Ecount].
      split.
      + rewrite Hcount, Ecount. unfold guarded_chain_count, guarded_chains.
        simpl. lia.
      + intros H1 H2. destruct (Ewf H1 H2). now apply Hwf. }
  intros H. apply Hloop in H. destruct H as [Hcount Hwf]. simpl in *.
  split; [exact Hcount|]. apply Hwf; constructor.
Qed.

Lemma extraction_loop_accounts_for_every_chain_witness :
  extraction_loop example_world "runs" "clust" "m" "tmp"
                  [(0, row_B); (1, row_A)]
  = Ok {| DF := [[mkSuccessRow "M1" "homo" 1 "AD" "R1" "ACD" "0;2;9";
                  mkSuccessRow "M2" "homo" 1 "AE" "R1" "ACE" "0;2;9"]];
          FAILED := [[{| iden := "R9" |}]] |}
  /\ (1 + 1)%nat = guarded_chain_count [(0, row_B); (1, row_A)].
Proof.
  assert (extraction_loop example_world "runs" "clust" "m" "tmp"
                          [(0, row_B); (1, row_A)]
          = Ok {| DF := [[mkSuccessRow "M1" "homo" 1 "AD" "R1" "ACD" "0;2;9";
                          mkSuccessRow "M2" "homo" 1 "AE" "R1" "ACE" "0;2;9"]];
                  FAILED := [[{| iden := "R9" |}]] |}) as H
    by (vm_compute; reflexivity).
  split; [exact H|].
  exact (proj1 (extraction_loop_accounts_for_every_chain _ _ _ _ _ _ _ H)).
Defined.

(** ** Tables and their persistence *)

Lemma success_key_eqb_eq (a b : string * string * Z * string * string) :
  success_key_eqb a b = true <-> a = b.
Proof.
  destruct a as [[[[a1 a2] a3] a4] a5], b as [[[[b1 b2] b3] b4] b5].
  unfold success_key_eqb.
  rewrite !andb_true_iff, !String.eqb_eq, Z.eqb_eq.
  split; [intros [[[[-> ->] ->] ->] ->]; reflexivity|].
  intros H. injection H as -> -> -> -> ->. auto.
Qed.

Section DropDuplicates.

Context {R K : Type} (eqb : K -> K -> bool) (key : R -> K).
Hypothesis eqb_eq : forall a b, eqb a b = true <-> a = b.

Lemma seen_spec (seen : list K) (k : K) :
  existsb (eqb k) seen = true <-> In k seen.
Proof.
  rewrite existsb_exists. split.
  - intros [x [Hx E]]. apply eqb_eq in E. now subst.
  - intros H. exists k. split; [assumption | now apply eqb_eq].
Qed.

Lemma drop_duplicates_from_spec (rows : DataFrame R) :
  forall seen,
    let kept := drop_duplicates_from eqb key seen rows in
    NoDup (map key kept)
    /\ (forall r, In r kept -> In r rows /\ ~ In (key r) seen)
    /\ (forall r, In r rows ->
                  In (key r) seen \/ exists r', In r' kept /\ key r' = key r).
Proof.
  induction rows as [|r rows IH]; intros seen; simpl.
  - split; [constructor|]. split; intros r [].
  - destruct (existsb (eqb (key r)) seen) eqn:E.
    + apply seen_spec in E.
      destruct (IH seen) as [H1 [H2 H3]]. split; [assumption|]. split.
      * intros x Hx. destruct (H2 x Hx). auto.
      * intros x [<-|Hx]; [now left | now apply H3].
    + assert (~ In (key r) seen) as Hnew
        by (intros H; apply seen_spec in H; congruence).
      destruct (IH (key r :: seen)) as [H1 [H2 H3]]. split; [|split].
      * simpl. constructor; [|assumption].
        intros H. apply in_map_iff in H. destruct H as [x [Ex Hx]].
        destruct (H2 x Hx) as [_ Hx']. apply Hx'. left. now rewrite Ex.
      * intros x [<-|Hx]; [auto|].
        destruct (H2 x Hx) as [Hin Hnot]. split; [auto|].
        intros H. apply Hnot. now right.
      * intros x [<-|Hx]; [right; exists r; simpl; auto|].
        destruct (H3 x Hx) as [[E'|Hs] | [r' [Hr' Er']]].
        -- right. exists r. simpl. auto.
        -- now left.
        -- right. exists r'. simpl. auto.
Qed.

End DropDuplicates.

(** X16. Whenever [match_pseudoseq] writes [DF_noduplicate.tsv], it has
    written [DF.tsv] before, and the deduplicated table consists of rows of
    [DF.tsv], holds no two rows with the same (identifier, species, class,
    representative identifier, pseudo-sequence), and keeps a row for every
    such combination present in [DF.tsv]. *)
Theorem success_table_deduplicated :
  forall (w : World) (df : list (Z * ClipRow))
         (input_folder folder model tmp_dir : string)
         (continue_from_index : option Z)
         (files : list (string * Table)) (outcome : result unit)
         (dedup : DataFrame SuccessRow),
    match_pseudoseq w df input_folder folder model tmp_dir continue_from_index
      = (files, outcome) ->
    In ("DF_noduplicate.tsv", SuccessTable dedup) files ->
    exists all,
      In ("DF.tsv", SuccessTable all) files
      /\ NoDup (map success_key dedup)
      /\ (forall r, In r dedup -> In r all)
      /\ (forall r, In r all ->
                    exists r', In r' dedup /\ success_key r' = success_key r).
Proof.
  intros w df input_folder folder model tmp_dir cfi files outcome dedup Hrun Hin.
  unfold match_pseudoseq in Hrun.
  destruct (extraction_loop _ _ _ _ _ _) as [st|e].
  2: { injection Hrun as <- _. destruct Hin. }
  unfold persist in Hrun.
  destruct (pd_concat (DF st)) as [DF1|e].
  2: { injection Hrun as <- _. destruct Hin. }
  assert (dedup = drop_duplicates success_key_eqb success_key DF1
          /\ In ("DF.tsv", SuccessTable DF1) files) as [-> Hall].
  { destruct (pd_concat (FAILED st)) as [F1|e]; injection Hrun as <- _;
      simpl in Hin |- *;
      repeat match goal with
             | H : _ \/ _ |- _ => destruct H
             | H : False |- _ => destruct H
             | H : (_, _) = (_, _) |- _ =>
                 first [discriminate H | injection H as <-]
             end; auto. }
  exists DF1. split; [assumption|].
  destruct (drop_duplicates_from_spec success_key_eqb success_key
              success_key_eqb_eq DF1 []) as [H1 [H2 H3]].
  split; [exact H1|]. split.
  - intros r Hr. now destruct (H2 r Hr).
  - intros r Hr. destruct (H3 r Hr) as [[]|H]; assumption.
Qed.

Lemma success_table_deduplicated_witness :
  let duplicated := mkClipRow 3 "A-homo_clust_all_seqs.fasta" "r1" 1 "R1_7" in
  exists files all,
    match_pseudoseq example_world [(0, row_A); (1, duplicated); (2, row_B)]
                    "runs" "clust" "m" "tmp" None
    = (files, Ok tt)
    /\ In ("DF_noduplicate.tsv",
           SuccessTable [mkSuccessRow "M1" "homo" 1 "AD" "R1" "ACD" "0;2;9";
                         mkSuccessRow "M2" "homo" 1 "AE" "R1" "ACE" "0;2;9"])
          files
    /\ In ("DF.tsv", SuccessTable all) files
    /\ List.length all = 4%nat.
Proof.
  intros duplicated.
  eexists.
  assert (match_pseudoseq example_world [(0, row_A); (1, duplicated); (2, row_B)]
                          "runs" "clust" "m" "tmp" None
          = (_, Ok tt)) as Hrun by (vm_compute; reflexivity).
  destruct (success_table_deduplicated _ _ _ _ _ _ _ _ _
              [mkSuccessRow "M1" "homo" 1 "AD" "R1" "ACD" "0;2;9";
               mkSuccessRow "M2" "homo" 1 "AE" "R1" "ACE" "0;2;9"] Hrun)
    as [all [Hall _]].
  - simpl. auto.
  - exists all. split; [exact Hrun|]. split; [simpl; auto|].
    split; [exact Hall|].
    simpl in Hall.
    repeat match goal with
           | H : _ \/ _ |- _ => destruct H
           | H : False |- _ => destruct H
           | H : (_, _) = (_, _) |- _ =>
               first [discriminate H | injection H as <-]
           end; reflexivity.
Defined.

(** X17. [match_pseudoseq] returns only when the loop has left at least one
    success frame and at least one failure frame, and then it has written
    four tables, in this order: [DF.tsv], [DF_noduplicate.tsv], [FAILED.tsv],
    [FAILED_noduplicate.tsv].  When every chain succeeded there is no failure
    frame: the two success tables are written, the concatenation of the
    failure frames raises, and the function ends in that exception without
    the failure tables. *)
Theorem match_pseudoseq_returns_only_with_failures :
  forall (w : World) (df : list (Z * ClipRow))
         (input_folder folder model tmp_dir : string)
         (continue_from_index : option Z) (st : Acc),
    extraction_loop w input_folder folder model tmp_dir
                    (rows_from continue_from_index df) = Ok st ->
    DF st <> [] ->
    let all := List.concat (DF st) in
    let success_tables :=
      [("DF.tsv", SuccessTable all);
       ("DF_noduplicate.tsv",
        SuccessTable (drop_duplicates success_key_eqb success_key all))] in
    (FAILED st = [] ->
     match_pseudoseq w df input_folder folder model tmp_dir continue_from_index
     = (success_tables, Raise ValueError))
    /\ (FAILED st <> [] ->
        match_pseudoseq w df input_folder folder model tmp_dir continue_from_index
        = (success_tables
           ++ [("FAILED.tsv", FailureTable (List.concat (FAILED st)));
               ("FAILED_noduplicate.tsv", FailureTable (List.concat (FAILED st)))],
           Ok tt)).
Proof.
  intros w df input_folder folder model tmp_dir cfi st Hloop HDF all tables.
  unfold match_pseudoseq. rewrite Hloop. unfold persist, pd_concat.
  destruct (DF st) as [|d l] eqn:EDF; [contradiction|].
  split.
  - intros ->. reflexivity.
  - intros HF. destruct (FAILED st) as [|f l'] eqn:EF; [contradiction|].
    reflexivity.
Qed.

Lemma match_pseudoseq_returns_only_with_failures_witness :
  match_pseudoseq example_world [(0, row_A)] "runs" "clust" "m" "tmp" None
  = ([("DF.tsv",
       SuccessTable [mkSuccessRow "M1" "homo" 1 "AD" "R1" "ACD" "0;2;9";
                     mkSuccessRow "M2" "homo" 1 "AE" "R1" "ACE" "0;2;9"]);
      ("DF_noduplicate.tsv",
       SuccessTable [mkSuccessRow "M1" "homo" 1 "AD" "R1" "ACD" "0;2;9";
                     mkSuccessRow "M2" "homo" 1 "AE" "R1" "ACE" "0;2;9"])],
     Raise ValueError).
Proof.
  apply (match_pseudoseq_returns_only_with_failures
           example_world [(0, row_A)] "runs" "clust" "m" "tmp" None
           {| DF := [[mkSuccessRow "M1" "homo" 1 "AD" "R1" "ACD" "0;2;9";
                      mkSuccessRow "M2" "homo" 1 "AE" "R1" "ACE" "0;2;9"]];
              FAILED := [] |}).
  - vm_compute; reflexivity.
  - discriminate.
  - reflexivity.
Defined.

(** ** Identifiers and file names across the stages *)

Lemma prefix_empty (s : string) : String.prefix EmptyString s = true.
Proof. destruct s; reflexivity. Qed.

Lemma split_char_at_sep (c : ascii) (s : string) :
  split (String c EmptyString) (String c s)
  = EmptyString :: split (String c EmptyString) s.
Proof.
  unfold split. cbn [split_from String.prefix String.length Nat.sub].
  destruct (ascii_dec c c); [|congruence]. now rewrite prefix_empty.
Qed.

Lemma split_char_at_other (c x : ascii) (s : string) :
  x <> c ->
  split (String c EmptyString) (String x s)
  = match split (String c EmptyString) s with
    | h :: t => String x h :: t
    | [] => [String x EmptyString]
    end.
Proof.
  intros Hx. unfold split. cbn [split_from String.prefix].
  destruct (ascii_dec c x); [congruence | reflexivity].
Qed.

Lemma split_char_absent (c : ascii) (s : string) :
  ~ In c (chars s) -> split (String c EmptyString) s = [s].
Proof.
  induction s as [|x s IH]; intros H; [reflexivity|].
  simpl in H. rewrite split_char_at_other by (intros ->; tauto).
  rewrite IH by tauto. reflexivity.
Qed.

(** The field before the first separator. *)
Lemma split_char_first_field (c : ascii) (a rest : string) :
  ~ In c (chars a) ->
  split (String c EmptyString) (a ++ String c rest)
  = a :: split (String c EmptyString) rest.
Proof.
  induction a as [|x a IH]; intros H; cbn [append].
  - apply split_char_at_sep.
  - simpl in H. rewrite split_char_at_other by (intros ->; tauto).
    rewrite IH by tauto. reflexivity.
Qed.

Lemma split_char_head_extends (c : ascii) (a rest : string) :
  ~ In c (chars a) ->
  exists h t, split (String c EmptyString) (a ++ rest) = (a ++ h)%string :: t.
Proof.
  induction a as [|x a IH]; intros H; cbn [append].
  - pose proof (split_from_nonempty (String c EmptyString) rest 0) as Hne.
    unfold split. destruct (split_from _ 0 rest) as [|h t]; [congruence|].
    now exists h, t.
  - simpl in H. rewrite split_char_at_other by (intros ->; tauto).
    destruct IH as [h [t ->]]; [tauto|]. now exists h, t.
Qed.

(** The field after the last separator. *)
Lemma split_char_last_field (c : ascii) (a t : string) :
  ~ In c (chars t) ->
  split (String c EmptyString) (a ++ String c t)
  = split (String c EmptyString) a ++ [t].
Proof.
  intros Ht. induction a as [|x a IH]; cbn [append].
  - rewrite split_char_at_sep, split_char_absent by assumption. reflexivity.
  - destruct (ascii_dec x c) as [->|Hx].
    + rewrite !split_char_at_sep, IH. reflexivity.
    + rewrite !split_char_at_other by assumption. rewrite IH.
      pose proof (split_from_nonempty (String c EmptyString) a 0) as Hne.
      unfold split in *. destruct (split_from _ 0 a) as [|h l]; [congruence|].
      reflexivity.
Qed.

Lemma append_associative (a b c : string) :
  ((a ++ b) ++ c)%string = (a ++ b ++ c)%string.
Proof. induction a as [|x a IH]; simpl; [reflexivity | now rewrite IH]. Qed.

Lemma concat_cons_char (sep : string) (x : ascii) (h : string) (t : list string) :
  String.concat sep (String x h :: t) = String x (String.concat sep (h :: t)).
Proof. destruct t; reflexivity. Qed.

Lemma join_split_char (c : ascii) (s : string) :
  join (String c EmptyString) (split (String c EmptyString) s) = s.
Proof.
  unfold join. induction s as [|x s IH]; [reflexivity|].
  pose proof (split_from_nonempty (String c EmptyString) s 0) as Hne.
  destruct (ascii_dec x c) as [->|Hx].
  - rewrite split_char_at_sep. unfold split in *.
    destruct (split_from _ 0 s) as [|h l] eqn:E; [congruence|].
    change (String.concat (String c EmptyString) (EmptyString :: h :: l))
      with (String c (String.concat (String c EmptyString) (h :: l))).
    now rewrite IH.
  - rewrite split_char_at_other by assumption. unfold split in *.
    destruct (split_from _ 0 s) as [|h l] eqn:E; [congruence|].
    rewrite concat_cons_char. now rewrite IH.
Qed.

Lemma split_pair_absent (s : string) :
  ~ In ";"%char (chars s) -> split ";;" s = [s].
Proof.
  unfold split. induction s as [|x s IH]; intros H; [reflexivity|].
  simpl in H. cbn [split_from String.prefix].
  destruct (ascii_dec ";" x) as [<-|_]; [tauto|].
  rewrite IH by tauto. reflexivity.
Qed.

Lemma split_pair_two (a b : string) :
  ~ In ";"%char (chars a) -> ~ In ";"%char (chars b) ->
  split ";;" (a ++ ";;" ++ b) = [a; b].
Proof.
  intros Ha Hb. unfold split. induction a as [|x a IH]; cbn [append].
  - cbn [split_from String.prefix String.length Nat.sub].
    destruct (ascii_dec ";" ";"); [|congruence].
    rewrite prefix_empty.
    change (split_from ";;" 0 b) with (split ";;" b).
    now rewrite split_pair_absent.
  - simpl in Ha. cbn [split_from String.prefix].
    destruct (ascii_dec ";" x) as [<-|_]; [tauto|].
    cbn [append] in IH. rewrite IH by tauto. reflexivity.
Qed.

(** X18. The identifier that [create_parsefold_input_from_representatives]
    writes, a record identifier followed by [_] and the counter, is read back
    by [match_pseudoseq]: the counter is removed whatever underscores the
    record identifier has, and the rest is split at [;;].  A paired identifier
    [a;;b] (as the chain-pairing stage builds headers) gives the two
    representative identifiers [a] and [b], a plain one gives itself. *)
Theorem idens_of_generated_identifier :
  forall (row : ClipRow) (record_id : string) (num : Z),
    row_iden row = (record_id ++ "_" ++ str num)%string ->
    idens_of row = split ";;" record_id
    /\ (forall a b, ~ In ";"%char (chars a) -> ~ In ";"%char (chars b) ->
                    record_id = (a ++ ";;" ++ b)%string ->
                    idens_of row = [a; b])
    /\ (~ In ";"%char (chars record_id) -> idens_of row = [record_id]).
Proof.
  intros row record_id num Hiden.
  assert (idens_of row = split ";;" record_id) as H.
  { unfold idens_of. rewrite Hiden.
    change ("_" ++ str num)%string with (String "_" (str num)).
    rewrite split_char_last_field by apply str_no_underscore.
    rewrite removelast_last. now rewrite join_split_char. }
  split; [exact H|]. split.
  - intros a b Ha Hb ->. rewrite H. now apply split_pair_two.
  - intros Hid. rewrite H. now apply split_pair_absent.
Qed.

Lemma idens_of_generated_identifier_witness :
  row_iden (mkClipRow 3 "f" "r1" 2 "HLA_DRA*01;;HLA_DRB1*15_42")
  = ("HLA_DRA*01;;HLA_DRB1*15" ++ "_" ++ str 42)%string
  /\ idens_of (mkClipRow 3 "f" "r1" 2 "HLA_DRA*01;;HLA_DRB1*15_42")
     = ["HLA_DRA*01"; "HLA_DRB1*15"].
Proof.
  split; [reflexivity|].
  destruct (idens_of_generated_identifier
              (mkClipRow 3 "f" "r1" 2 "HLA_DRA*01;;HLA_DRB1*15_42")
              "HLA_DRA*01;;HLA_DRB1*15" 42 eq_refl) as [_ [H _]].
  apply (H "HLA_DRA*01" "HLA_DRB1*15").
  - simpl. intros H'. repeat (destruct H' as [H'|H']; [discriminate|]). exact H'.
  - simpl. intros H'. repeat (destruct H' as [H'|H']; [discriminate|]). exact H'.
  - reflexivity.
Defined.

(** X19. For a file name of the form gene, [-], species, [_], rest, where the
    gene has no [-] and the species neither [-] nor [_], the species parsed by
    [match_pseudoseq] is that species, whatever follows; for a file name
    without [-] the parse raises [IndexError]. *)
Theorem species_of_file_name :
  forall gene sp rest : string,
    ~ In "-"%char (chars gene) ->
    ~ In "-"%char (chars sp) ->
    ~ In "_"%char (chars sp) ->
    species_of (gene ++ "-" ++ sp ++ "_" ++ rest) = Ok sp
    /\ species_of gene = Raise IndexError.
Proof.
  intros gene sp rest Hgene Hsp1 Hsp2. split.
  - unfold species_of.
    change ("-" ++ sp ++ "_" ++ rest)%string
      with (String "-" (sp ++ "_" ++ rest)).
    rewrite split_char_first_field by assumption.
    destruct (split_char_head_extends "-" (sp ++ "_") rest) as [h [t E]].
    { rewrite chars_append. intros H. apply in_app_or in H.
      destruct H as [H|[H|[]]]; [tauto | discriminate]. }
    rewrite append_associative in E.
    unfold getitem at 1. cbn [nth_error]. rewrite E. cbn [bind].
    rewrite append_associative.
    change ("_" ++ h)%string with (String "_" h).
    rewrite split_char_first_field by assumption.
    reflexivity.
  - unfold species_of. rewrite split_char_absent by assumption. reflexivity.
Qed.

Lemma species_of_file_name_witness :
  ~ In "-"%char (chars "DRB1") /\
  species_of "DRB1-homo_clust_all-seqs_v2.fasta" = Ok "homo".
Proof.
  assert (~ In "-"%char (chars "DRB1")) as H1
    by (simpl; intros H; repeat (destruct H as [H|H]; [discriminate|]); exact H).
  split; [exact H1|].
  apply (species_of_file_name "DRB1" "homo" "clust_all-seqs_v2.fasta" H1).
  - simpl; intros H; repeat (destruct H as [H|H]; [discriminate|]); exact H.
  - simpl; intros H; repeat (destruct H as [H|H]; [discriminate|]); exact H.
Defined.
